(** * PW_BuildSeries: debounced button bank and soft-brake H-bridge driver

    A shallow embedding of [src/hal/ButtonHandler/ButtonHandler.h],
    [src/utils/MathFns/MathFns.h] and
    [examples/#3_motorDriver/hal/HBridgeMotor/HBridgeMotor.{h,cpp}],
    followed by the properties of the specification that concern them.

    Conventions of the embedding:
    - [uint32_t] values are integers in [0, 2^32); subtraction wraps
      ([u32]).  [int], [uint16_t] and [int64_t] values are integers.
    - C arrays of the template size [N] are lists of length [N], read with
      [!!!] and written with [<[i:=x]>]; every index the code uses is below
      [N], which the well-formedness predicate [wf] records.
    - [float] and [double] are IEEE-754 binary32 and binary64 values
      ([spec_float]) with round-to-nearest-even operations.
    - The hardware collaborators ([millis], [digitalRead], [digitalWrite],
      [mcpwm_set_duty], [esp_timer_*]) are inputs to, or an explicit part
      of, the state. *)

From Stdlib Require Import ZArith Bool List Lia SpecFloat.
From stdpp Require Import base tactics option list.
Import ListNotations.

Local Open Scope Z_scope.

(* ===================================================================== *)
(** * Definitions *)
(* ===================================================================== *)

(** ** MathFns.h *)

Module MathFns.

(** [clamp<int>]: [(value < low) ? low : (value > high) ? high : value]. *)
Definition clamp (value low high : Z) : Z :=
  if value <? low then low
  else if value >? high then high
  else value.

(** [clamp<float>], the same template at binary32; [<] and [>] are the
    IEEE comparisons (false on NaN). *)
Definition clampf (value low high : spec_float) : spec_float :=
  if SFltb value low then low
  else if SFltb high value then high
  else value.

End MathFns.

(** ** IButtonHandler.h *)

Module ButtonPressType.
Inductive t : Set := None | Short | Long.
End ButtonPressType.

#[global] Instance ButtonPressType_inhabited : Inhabited ButtonPressType.t :=
  populate ButtonPressType.None.

#[global] Instance ButtonPressType_eq_dec : EqDecision ButtonPressType.t.
Proof. solve_decision. Defined.

Record ButtonTimingConfig : Set := {
  debounce_ms : Z;     (* Minimum time to confirm a press/release. *)
  short_press_ms : Z;  (* Minimum time for a short press. *)
  long_press_ms : Z    (* Minimum time for a long press. *)
}.

(** The constructor's default arguments: 30, 200, 1000. *)
Definition ButtonTimingConfig_default : ButtonTimingConfig :=
  {| debounce_ms := 30; short_press_ms := 200; long_press_ms := 1000 |}.

(** ** ButtonHandler.h *)

(** Wrap-around of [uint32_t] arithmetic. *)
Definition u32 (z : Z) : Z := z mod 2 ^ 32.

Module ButtonHandler.

(** The private members of [ButtonHandler<N>].  [read_func_] reads the
    hardware, so it is an input of [update] rather than a field. *)
Record t : Type := {
  pins_ : list Z;                     (* uint8_t pins_[N] *)
  last_state_ : list bool;            (* bool last_state_[N] *)
  last_state_change_ : list Z;        (* uint32_t last_state_change_[N] *)
  press_start_ : list Z;              (* uint32_t press_start_[N] *)
  event_ : list ButtonPressType.t;    (* ButtonPressType event_[N] *)
  timing_ : ButtonTimingConfig
}.

Definition set_last_state (f : list bool -> list bool) (b : t) : t :=
  {| pins_ := pins_ b; last_state_ := f (last_state_ b);
     last_state_change_ := last_state_change_ b;
     press_start_ := press_start_ b; event_ := event_ b;
     timing_ := timing_ b |}.

Definition set_last_state_change (f : list Z -> list Z) (b : t) : t :=
  {| pins_ := pins_ b; last_state_ := last_state_ b;
     last_state_change_ := f (last_state_change_ b);
     press_start_ := press_start_ b; event_ := event_ b;
     timing_ := timing_ b |}.

Definition set_press_start (f : list Z -> list Z) (b : t) : t :=
  {| pins_ := pins_ b; last_state_ := last_state_ b;
     last_state_change_ := last_state_change_ b;
     press_start_ := f (press_start_ b); event_ := event_ b;
     timing_ := timing_ b |}.

Definition set_event
    (f : list ButtonPressType.t -> list ButtonPressType.t) (b : t) : t :=
  {| pins_ := pins_ b; last_state_ := last_state_ b;
     last_state_change_ := last_state_change_ b;
     press_start_ := press_start_ b; event_ := f (event_ b);
     timing_ := timing_ b |}.

(** The constructor: copies [N] pins and clears every per-button slot. *)
Definition make (N : nat) (buttonPins : list Z)
    (timing : ButtonTimingConfig) : t :=
  {| pins_ := take N buttonPins;
     last_state_ := replicate N false;
     last_state_change_ := replicate N 0;
     press_start_ := replicate N 0;
     event_ := replicate N ButtonPressType.None;
     timing_ := timing |}.

(** The arrays all have the template length. *)
Definition wf (N : nat) (b : t) : Prop :=
  length (pins_ b) = N /\ length (last_state_ b) = N /\
  length (last_state_change_ b) = N /\ length (press_start_ b) = N /\
  length (event_ b) = N.

(** The release branch of [update]: classification of a press duration. *)
Definition classify (timing : ButtonTimingConfig) (duration : Z)
    : ButtonPressType.t :=
  if long_press_ms timing <=? duration then ButtonPressType.Long
  else if short_press_ms timing <=? duration then ButtonPressType.Short
  else ButtonPressType.None.

(** One iteration of the [for] loop of [update], for button [i];
    [now] is the value [millis()] returned at the top of [update] and
    [read_func] the reading of the inputs during this scan. *)
Definition update_button (now : Z) (read_func : Z -> bool)
    (b : t) (i : nat) : t :=
  let pressed := read_func (pins_ b !!! i) in
  if negb (eqb pressed (last_state_ b !!! i)) then
    if debounce_ms (timing_ b) <=? u32 (now - last_state_change_ b !!! i)
    then
      let b1 := set_last_state_change (<[i := now]>) b in
      let b2 := set_last_state (<[i := pressed]>) b1 in
      if pressed then
        set_press_start (<[i := now]>) b2
      else
        let duration := u32 (now - press_start_ b2 !!! i) in
        let b3 :=
          set_event (<[i := classify (timing_ b2) duration]>) b2 in
        set_press_start (<[i := 0]>) b3
    else b
  else b.

(** [update()]: [for (size_t i = 0; i < N; ++i)]. *)
Definition update (N : nat) (now : Z) (read_func : Z -> bool) (b : t) : t :=
  fold_left (update_button now read_func) (seq 0 N) b.

(** [isPressed(buttonId)]. *)
Definition isPressed (N : nat) (buttonId : nat) (b : t) : bool :=
  if (N <=? buttonId)%nat then false
  else last_state_ b !!! buttonId.

(** [getPressType(buttonId)]: the returned event and the handler after
    the call. *)
Definition getPressType (N : nat) (buttonId : nat) (b : t)
    : ButtonPressType.t * t :=
  if (N <=? buttonId)%nat then (ButtonPressType.None, b)
  else
    let e := event_ b !!! buttonId in
    (e, set_event (<[buttonId := ButtonPressType.None]>) b).

(** A scan is one call of [update]: the clock value and the input
    reading it sees.  [run] performs the scans of a list in order. *)
Definition scan : Type := Z * (Z -> bool).

Definition run (N : nat) (scans : list scan) (b : t) : t :=
  fold_left (fun b s => update N (fst s) (snd s) b) scans b.

(** The four per-button slots of button [i], read together. *)
Record slots : Type := {
  sl_state : bool;                 (* last_state_[i] *)
  sl_change : Z;                   (* last_state_change_[i] *)
  sl_start : Z;                    (* press_start_[i] *)
  sl_event : ButtonPressType.t     (* event_[i] *)
}.

Definition slots_of (b : t) (i : nat) : slots :=
  {| sl_state := last_state_ b !!! i;
     sl_change := last_state_change_ b !!! i;
     sl_start := press_start_ b !!! i;
     sl_event := event_ b !!! i |}.

(** Whether a sample [pressed] taken at [now] is a change of state that
    the debounce test of [update] lets through. *)
Definition accepts (timing : ButtonTimingConfig) (now : Z) (pressed : bool)
    (s : slots) : bool :=
  negb (eqb pressed (sl_state s))
  && (debounce_ms timing <=? u32 (now - sl_change s)).

(** What one loop iteration does to the slots of its own button. *)
Definition step (timing : ButtonTimingConfig) (now : Z) (pressed : bool)
    (s : slots) : slots :=
  if accepts timing now pressed s then
    if pressed then
      {| sl_state := true; sl_change := now; sl_start := now;
         sl_event := sl_event s |}
    else
      {| sl_state := false; sl_change := now; sl_start := 0;
         sl_event := classify timing (u32 (now - sl_start s)) |}
  else s.

(** Whether some scan of the list makes button [i] go through an accepted
    release. *)
Fixpoint releases (N : nat) (i : nat) (scans : list scan) (b : t) : bool :=
  match scans with
  | [] => false
  | s :: rest =>
      (accepts (timing_ b) (fst s) (snd s (pins_ b !!! i)) (slots_of b i)
       && negb (snd s (pins_ b !!! i)))
      || releases N i rest (update N (fst s) (snd s) b)
  end.

(** An example button: one input on pin 7, as in [app_config.h]. *)
Definition one_button (timing : ButtonTimingConfig) : t :=
  make 1 [7] timing.

Definition down : Z -> bool := fun _ => true.
Definition up : Z -> bool := fun _ => false.

(** The relation the code keeps between the slots of button [i]: while the
    button is pressed [press_start_[i]] is the time the press was accepted,
    which is also [last_state_change_[i]]; while it is released
    [press_start_[i]] is 0. *)
Definition press_start_consistent (b : t) (i : nat) : Prop :=
  if (last_state_ b !!! i : bool)
  then press_start_ b !!! i = last_state_change_ b !!! i
  else press_start_ b !!! i = 0.

End ButtonHandler.

(** ** IEEE-754 arithmetic used by the motor driver *)

Module Float.

(** binary32 ([float]) and binary64 ([double]) operations. *)
Definition div32 : spec_float -> spec_float -> spec_float := SFdiv 24 128.
Definition mul32 : spec_float -> spec_float -> spec_float := SFmul 24 128.
Definition div64 : spec_float -> spec_float -> spec_float := SFdiv 53 1024.
Definition mul64 : spec_float -> spec_float -> spec_float := SFmul 53 1024.

(** Integer to floating point conversions ([static_cast<float>],
    [static_cast<double>] and the usual arithmetic conversions). *)
Definition of_Z32 (z : Z) : spec_float := binary_normalize 24 128 z 0 false.
Definition of_Z64 (z : Z) : spec_float := binary_normalize 53 1024 z 0 false.

(** [float] to [double] promotion: the value is kept, the mantissa is
    realigned to 53 bits. *)
Definition to_double (f : spec_float) : spec_float :=
  match f with
  | S754_finite s m e => binary_round 53 1024 s m e
  | _ => f
  end.

(** Truncation toward zero of a finite value. *)
Definition trunc (s : bool) (m : positive) (e : Z) : Z :=
  let magnitude := Z.shiftl (Zpos m) e in
  if s then - magnitude else magnitude.

(** [static_cast<int64_t>] of a [double].  The conversion is undefined in
    C++ when the truncated value is not representable (NaN, infinities,
    magnitudes beyond 2^63); [undefined] is the value the platform then
    produces. *)
Definition to_int64 (undefined : spec_float -> Z) (f : spec_float) : Z :=
  match f with
  | S754_zero _ => 0
  | S754_finite s m e =>
      let z := trunc s m e in
      if (- 2 ^ 63 <=? z) && (z <? 2 ^ 63) then z else undefined f
  | _ => undefined f
  end.

Arguments div32 : simpl never.
Arguments mul32 : simpl never.
Arguments div64 : simpl never.
Arguments mul64 : simpl never.
Arguments of_Z32 : simpl never.
Arguments of_Z64 : simpl never.
Arguments to_double : simpl never.
Arguments to_int64 : simpl never.

(** Literals of the source. *)
Definition zero : spec_float := S754_zero false.               (* 0.0f *)
Definition one : spec_float := of_Z32 1.                       (* 1.0f *)
Definition hundred : spec_float := of_Z32 100.                 (* 100.0f *)
Definition lit_0_001f : spec_float := S754_finite false 8589935 (-33).
Definition lit_0_999f : spec_float := S754_finite false 16760439 (-24).
Definition lit_1e6 : spec_float := of_Z64 1000000.             (* 1e6 *)

End Float.

(** ** IMotorDriver.h and the motor part of app_config.h *)

Inductive FreewheelMode : Set :=
| HiZ          (* Coast with output HiZ; driver may sleep. *)
| HiZ_Awake    (* Coast with output HiZ; driver stays awake. *)
| DitherBrake. (* Pulsed brake/coast for light drag. *)

#[global] Instance FreewheelMode_eq_dec : EqDecision FreewheelMode.
Proof. solve_decision. Defined.

Record MotorBehaviorConfig : Set := {
  freewheel_mode : FreewheelMode;
  soft_brake_hz : Z;   (* int *)
  dither_pwm : Z       (* uint16_t *)
}.

(** [MotorBehaviorConfig() = default]: HiZ, 300 Hz, dither 30. *)
Definition MotorBehaviorConfig_default : MotorBehaviorConfig :=
  {| freewheel_mode := HiZ; soft_brake_hz := 300; dither_pwm := 30 |}.

Definition with_freewheel_mode (mode : FreewheelMode)
    (beh : MotorBehaviorConfig) : MotorBehaviorConfig :=
  {| freewheel_mode := mode; soft_brake_hz := soft_brake_hz beh;
     dither_pwm := dither_pwm beh |}.

Inductive Dir : Set := CW | CCW.

(** [IMotorDriver::changeDir]. *)
Definition changeDir (dir : Dir) : Dir :=
  match dir with CW => CCW | CCW => CW end.

(** [MotorMCPWMConfig]; the MCPWM unit, timer and signal selectors are
    passed through to the peripheral untouched and are left out. *)
Record MotorMCPWMConfig : Set := {
  lpwm_pin : Z;   (* uint8_t *)
  rpwm_pin : Z;   (* uint8_t *)
  en_pin : Z      (* int8_t, -1 if unused *)
}.

(** ** The hardware the driver owns *)

Inductive McpwmOperator : Set := MCPWM_OPR_A | MCPWM_OPR_B.

(** Calls made to the platform, in the order they are issued. *)
Inductive HwCall : Type :=
| mcpwm_gpio_init (pin : Z)
| mcpwm_init
| mcpwm_set_duty_type (op : McpwmOperator)
| mcpwm_set_duty (op : McpwmOperator) (percent : spec_float)
| pinMode_OUTPUT (pin : Z)
| digitalWrite (pin : Z) (high : bool)
| esp_timer_create
| esp_timer_stop
| esp_timer_start_once (timeout_us : Z).

(** The state of the peripherals as the driver can observe it.  Arming the
    one-shot replaces whatever delay was armed; the driver arms it only
    when it is idle (on starting the cycle, and in the callback after the
    one-shot has fired). *)
Record Hardware : Type := {
  duty_a : spec_float;    (* duty of operator A, percent *)
  duty_b : spec_float;    (* duty of operator B, percent *)
  en_level : bool;        (* level last written to the enable pin *)
  timer : option Z;       (* the one-shot: armed with a delay, or idle *)
  calls : list HwCall     (* every call so far, oldest first *)
}.

Definition Hardware_reset : Hardware :=
  {| duty_a := Float.zero; duty_b := Float.zero; en_level := false;
     timer := None; calls := [] |}.

Definition hw_call (c : HwCall) (h : Hardware) : Hardware :=
  let log := calls h ++ [c] in
  match c with
  | mcpwm_init =>
      {| duty_a := Float.zero; duty_b := Float.zero; en_level := en_level h;
         timer := timer h; calls := log |}
  | mcpwm_set_duty MCPWM_OPR_A percent =>
      {| duty_a := percent; duty_b := duty_b h; en_level := en_level h;
         timer := timer h; calls := log |}
  | mcpwm_set_duty MCPWM_OPR_B percent =>
      {| duty_a := duty_a h; duty_b := percent; en_level := en_level h;
         timer := timer h; calls := log |}
  | digitalWrite _ high =>
      {| duty_a := duty_a h; duty_b := duty_b h; en_level := high;
         timer := timer h; calls := log |}
  | esp_timer_stop =>
      {| duty_a := duty_a h; duty_b := duty_b h; en_level := en_level h;
         timer := None; calls := log |}
  | esp_timer_start_once timeout_us =>
      {| duty_a := duty_a h; duty_b := duty_b h; en_level := en_level h;
         timer := Some timeout_us; calls := log |}
  | _ =>
      {| duty_a := duty_a h; duty_b := duty_b h; en_level := en_level h;
         timer := timer h; calls := log |}
  end.

(** ** HBridgeMotor.h / HBridgeMotor.cpp *)

Module HBridgeMotor.

Definition kPwmFreq_ : Z := 20000.
Definition kBitRes_ : Z := 10.
Definition kPwmMaxInput_ : Z := Z.shiftl 1 kBitRes_ - 1.
Definition kDefaultBrake_ : Z := 50.
Definition kMicrosPerSec : spec_float := Float.lit_1e6.
Definition kMinPhaseUs : Z := 1500.

(** [float percent_per_count_ = 100.0f / kPwmMaxInput_]; the member is
    never assigned after its initialiser. *)
Definition percent_per_count_ : spec_float :=
  Float.div32 Float.hundred (Float.of_Z32 kPwmMaxInput_).

Inductive BrakePhase : Set :=
| Coast   (* Outputs set to 0% duty, motor freewheels. *)
| Brake.  (* Outputs shorted for dynamic braking. *)

(** The data members, and the hardware they drive. *)
Record t : Type := {
  lpwm_pin_ : Z;
  rpwm_pin_ : Z;
  en_pin_ : Z;
  use_en_ : bool;
  en_state_ : bool;
  soft_brake_pwm_ : Z;
  beh_ : MotorBehaviorConfig;
  soft_timer_ : bool;          (* the timer handle: created or null *)
  soft_active_ : bool;
  soft_phase_ : BrakePhase;
  soft_level_ : spec_float;
  soft_hz_ : Z;
  soft_us_brake_ : Z;
  soft_us_coast_ : Z;
  hw : Hardware
}.

(** The object after [HBridgeMotor() = default], on hardware [h]. *)
Definition make (h : Hardware) : t :=
  {| lpwm_pin_ := -1; rpwm_pin_ := -1; en_pin_ := -1;
     use_en_ := false; en_state_ := false;
     soft_brake_pwm_ := kDefaultBrake_;
     beh_ := MotorBehaviorConfig_default;
     soft_timer_ := false; soft_active_ := false; soft_phase_ := Coast;
     soft_level_ := Float.zero; soft_hz_ := 300;
     soft_us_brake_ := 0; soft_us_coast_ := 0; hw := h |}.

Definition set_en_state (v : bool) (m : t) : t :=
  {| lpwm_pin_ := lpwm_pin_ m; rpwm_pin_ := rpwm_pin_ m;
     en_pin_ := en_pin_ m; use_en_ := use_en_ m; en_state_ := v;
     soft_brake_pwm_ := soft_brake_pwm_ m; beh_ := beh_ m;
     soft_timer_ := soft_timer_ m; soft_active_ := soft_active_ m;
     soft_phase_ := soft_phase_ m; soft_level_ := soft_level_ m;
     soft_hz_ := soft_hz_ m; soft_us_brake_ := soft_us_brake_ m;
     soft_us_coast_ := soft_us_coast_ m; hw := hw m |}.

Definition set_soft_brake_pwm (v : Z) (m : t) : t :=
  {| lpwm_pin_ := lpwm_pin_ m; rpwm_pin_ := rpwm_pin_ m;
     en_pin_ := en_pin_ m; use_en_ := use_en_ m; en_state_ := en_state_ m;
     soft_brake_pwm_ := v; beh_ := beh_ m;
     soft_timer_ := soft_timer_ m; soft_active_ := soft_active_ m;
     soft_phase_ := soft_phase_ m; soft_level_ := soft_level_ m;
     soft_hz_ := soft_hz_ m; soft_us_brake_ := soft_us_brake_ m;
     soft_us_coast_ := soft_us_coast_ m; hw := hw m |}.

Definition set_soft_active (v : bool) (m : t) : t :=
  {| lpwm_pin_ := lpwm_pin_ m; rpwm_pin_ := rpwm_pin_ m;
     en_pin_ := en_pin_ m; use_en_ := use_en_ m; en_state_ := en_state_ m;
     soft_brake_pwm_ := soft_brake_pwm_ m; beh_ := beh_ m;
     soft_timer_ := soft_timer_ m; soft_active_ := v;
     soft_phase_ := soft_phase_ m; soft_level_ := soft_level_ m;
     soft_hz_ := soft_hz_ m; soft_us_brake_ := soft_us_brake_ m;
     soft_us_coast_ := soft_us_coast_ m; hw := hw m |}.

Definition set_soft_phase (v : BrakePhase) (m : t) : t :=
  {| lpwm_pin_ := lpwm_pin_ m; rpwm_pin_ := rpwm_pin_ m;
     en_pin_ := en_pin_ m; use_en_ := use_en_ m; en_state_ := en_state_ m;
     soft_brake_pwm_ := soft_brake_pwm_ m; beh_ := beh_ m;
     soft_timer_ := soft_timer_ m; soft_active_ := soft_active_ m;
     soft_phase_ := v; soft_level_ := soft_level_ m;
     soft_hz_ := soft_hz_ m; soft_us_brake_ := soft_us_brake_ m;
     soft_us_coast_ := soft_us_coast_ m; hw := hw m |}.

Definition set_soft_level (v : spec_float) (m : t) : t :=
  {| lpwm_pin_ := lpwm_pin_ m; rpwm_pin_ := rpwm_pin_ m;
     en_pin_ := en_pin_ m; use_en_ := use_en_ m; en_state_ := en_state_ m;
     soft_brake_pwm_ := soft_brake_pwm_ m; beh_ := beh_ m;
     soft_timer_ := soft_timer_ m; soft_active_ := soft_active_ m;
     soft_phase_ := soft_phase_ m; soft_level_ := v;
     soft_hz_ := soft_hz_ m; soft_us_brake_ := soft_us_brake_ m;
     soft_us_coast_ := soft_us_coast_ m; hw := hw m |}.

Definition set_soft_us_brake (v : Z) (m : t) : t :=
  {| lpwm_pin_ := lpwm_pin_ m; rpwm_pin_ := rpwm_pin_ m;
     en_pin_ := en_pin_ m; use_en_ := use_en_ m; en_state_ := en_state_ m;
     soft_brake_pwm_ := soft_brake_pwm_ m; beh_ := beh_ m;
     soft_timer_ := soft_timer_ m; soft_active_ := soft_active_ m;
     soft_phase_ := soft_phase_ m; soft_level_ := soft_level_ m;
     soft_hz_ := soft_hz_ m; soft_us_brake_ := v;
     soft_us_coast_ := soft_us_coast_ m; hw := hw m |}.

Definition set_soft_us_coast (v : Z) (m : t) : t :=
  {| lpwm_pin_ := lpwm_pin_ m; rpwm_pin_ := rpwm_pin_ m;
     en_pin_ := en_pin_ m; use_en_ := use_en_ m; en_state_ := en_state_ m;
     soft_brake_pwm_ := soft_brake_pwm_ m; beh_ := beh_ m;
     soft_timer_ := soft_timer_ m; soft_active_ := soft_active_ m;
     soft_phase_ := soft_phase_ m; soft_level_ := soft_level_ m;
     soft_hz_ := soft_hz_ m; soft_us_brake_ := soft_us_brake_ m;
     soft_us_coast_ := v; hw := hw m |}.

Definition set_hw (f : Hardware -> Hardware) (m : t) : t :=
  {| lpwm_pin_ := lpwm_pin_ m; rpwm_pin_ := rpwm_pin_ m;
     en_pin_ := en_pin_ m; use_en_ := use_en_ m; en_state_ := en_state_ m;
     soft_brake_pwm_ := soft_brake_pwm_ m; beh_ := beh_ m;
     soft_timer_ := soft_timer_ m; soft_active_ := soft_active_ m;
     soft_phase_ := soft_phase_ m; soft_level_ := soft_level_ m;
     soft_hz_ := soft_hz_ m; soft_us_brake_ := soft_us_brake_ m;
     soft_us_coast_ := soft_us_coast_ m; hw := f (hw m) |}.

(** [setEnable(on)]. *)
Definition setEnable (on : bool) (m : t) : t :=
  if use_en_ m && negb (eqb (en_state_ m) on) then
    set_en_state on (set_hw (hw_call (digitalWrite (en_pin_ m) on)) m)
  else m.

(** [writeAB(a_percent, b_percent)]. *)
Definition writeAB (a_percent b_percent : spec_float) (m : t) : t :=
  set_hw (hw_call (mcpwm_set_duty MCPWM_OPR_B b_percent))
    (set_hw (hw_call (mcpwm_set_duty MCPWM_OPR_A a_percent)) m).

(** [stopSoftBrake()]. *)
Definition stopSoftBrake (m : t) : t :=
  if soft_active_ m then
    set_soft_active false (set_hw (hw_call esp_timer_stop) m)
  else m.

(** [applyPhase(p)]. *)
Definition applyPhase (p : BrakePhase) (m : t) : t :=
  match p with
  | Brake => writeAB Float.hundred Float.hundred (setEnable true m)
  | Coast => writeAB Float.zero Float.zero m
  end.

(** [scheduleNextPhase()]. *)
Definition scheduleNextPhase (m : t) : t :=
  if negb (soft_active_ m) then m
  else
    let dur_us :=
      match soft_phase_ m with
      | Brake => soft_us_brake_ m
      | Coast => soft_us_coast_ m
      end in
    let use_us := if dur_us <? kMinPhaseUs then kMinPhaseUs else dur_us in
    set_hw (hw_call (esp_timer_start_once use_us)) m.

(** [softBrakeISR()]. *)
Definition softBrakeISR (m : t) : t :=
  let m1 :=
    set_soft_phase
      (match soft_phase_ m with Coast => Brake | Brake => Coast end) m in
  scheduleNextPhase (applyPhase (soft_phase_ m1) m1).

Section Platform.

(** What [static_cast<int64_t>] yields where C++ leaves it undefined. *)
Variable undefined_int64 : spec_float -> Z.

(** [kMicrosPerSec / static_cast<double>(soft_hz_)]. *)
Definition period_us (m : t) : spec_float :=
  Float.div64 kMicrosPerSec (Float.of_Z64 (soft_hz_ m)).

(** The two assignments shared by [recomputeSoftDurations] and
    [startSoftBrake]:
    [soft_us_brake_ = static_cast<int64_t>(period_us * soft_level_)],
    [soft_us_coast_ = static_cast<int64_t>(period_us) - soft_us_brake_]. *)
Definition split_period (m : t) : t :=
  let m1 :=
    set_soft_us_brake
      (Float.to_int64 undefined_int64
         (Float.mul64 (period_us m) (Float.to_double (soft_level_ m))))
      m in
  set_soft_us_coast
    (Float.to_int64 undefined_int64 (period_us m1) - soft_us_brake_ m1)
    m1.

(** [recomputeSoftDurations()]. *)
Definition recomputeSoftDurations (m : t) : t :=
  let m1 :=
    set_soft_level
      (MathFns.clampf
         (Float.div32 (Float.of_Z32 (soft_brake_pwm_ m))
                      (Float.of_Z32 kPwmMaxInput_))
         Float.zero Float.one)
      m in
  let m2 := split_period m1 in
  let m3 :=
    if (soft_us_brake_ m2 <? kMinPhaseUs) && (soft_us_brake_ m2 >? 0)
    then set_soft_us_brake kMinPhaseUs m2 else m2 in
  if (soft_us_coast_ m3 <? kMinPhaseUs) && (soft_us_coast_ m3 >? 0)
  then set_soft_us_coast kMinPhaseUs m3 else m3.

(** [setSoftBrakePWM(pwm)]. *)
Definition setSoftBrakePWM (pwm : Z) (m : t) : t :=
  let m1 := set_soft_brake_pwm (MathFns.clamp pwm 0 kPwmMaxInput_) m in
  if soft_active_ m1 then recomputeSoftDurations m1 else m1.

(** [setHardBrake()]. *)
Definition setHardBrake (m : t) : t :=
  writeAB Float.hundred Float.hundred (setEnable true (stopSoftBrake m)).

(** [setFreewheel()] and [startSoftBrake()] call each other; [fuel]
    bounds the depth of the calls, and [None] means the bound was
    reached before the call returned. *)
Fixpoint setFreewheel (fuel : nat) (m : t) : option t :=
  match fuel with
  | O => None
  | S fuel =>
      let m1 := stopSoftBrake m in
      match freewheel_mode (beh_ m1) with
      | HiZ => Some (writeAB Float.zero Float.zero (setEnable false m1))
      | HiZ_Awake =>
          Some (writeAB Float.zero Float.zero (setEnable true m1))
      | DitherBrake =>
          startSoftBrake fuel (setSoftBrakePWM (dither_pwm (beh_ m1)) m1)
      end
  end
with startSoftBrake (fuel : nat) (m : t) : option t :=
  match fuel with
  | O => None
  | S fuel =>
      let m1 := recomputeSoftDurations m in
      if SFleb (soft_level_ m1) Float.lit_0_001f then
        setFreewheel fuel (stopSoftBrake m1)
      else if SFleb Float.lit_0_999f (soft_level_ m1) then
        Some (writeAB Float.hundred Float.hundred
                (setEnable true (stopSoftBrake m1)))
      else
        let m2 := split_period m1 in
        if negb (soft_active_ m2) then
          let m3 := set_soft_active true (set_soft_phase Coast m2) in
          Some (scheduleNextPhase (applyPhase (soft_phase_ m3) m3))
        else Some m2
  end.

(** [setSpeed(speed, dir)]. *)
Definition setSpeed (fuel : nat) (speed : Z) (dir : Dir) (m : t)
    : option t :=
  let clamped := MathFns.clamp speed 0 kPwmMaxInput_ in
  if clamped =? 0 then startSoftBrake fuel m
  else
    let m1 := setEnable true (stopSoftBrake m) in
    let duty := Float.mul32 (Float.of_Z32 clamped) percent_per_count_ in
    match dir with
    | CW => Some (writeAB duty Float.zero m1)
    | CCW => Some (writeAB Float.zero duty m1)
    end.

End Platform.

(** [setup(cfg, beh)]. *)
Definition setup2 (cfg : MotorMCPWMConfig) (beh : MotorBehaviorConfig)
    (m : t) : t :=
  let use_en := 0 <=? en_pin cfg in
  let m1 :=
    {| lpwm_pin_ := lpwm_pin cfg; rpwm_pin_ := rpwm_pin cfg;
       en_pin_ := en_pin cfg; use_en_ := use_en; en_state_ := en_state_ m;
       soft_brake_pwm_ := soft_brake_pwm_ m; beh_ := beh;
       soft_timer_ := soft_timer_ m; soft_active_ := soft_active_ m;
       soft_phase_ := soft_phase_ m; soft_level_ := soft_level_ m;
       soft_hz_ := soft_brake_hz beh; soft_us_brake_ := soft_us_brake_ m;
       soft_us_coast_ := soft_us_coast_ m; hw := hw m |} in
  let m2 :=
    fold_left (fun m c => set_hw (hw_call c) m)
      [mcpwm_gpio_init (lpwm_pin_ m1); mcpwm_gpio_init (rpwm_pin_ m1);
       mcpwm_init;
       mcpwm_set_duty_type MCPWM_OPR_A; mcpwm_set_duty_type MCPWM_OPR_B]
      m1 in
  let m3 :=
    if use_en_ m2 then
      setEnable true (set_hw (hw_call (pinMode_OUTPUT (en_pin_ m2))) m2)
    else m2 in
  if negb (soft_timer_ m3) then
    {| lpwm_pin_ := lpwm_pin_ m3; rpwm_pin_ := rpwm_pin_ m3;
       en_pin_ := en_pin_ m3; use_en_ := use_en_ m3;
       en_state_ := en_state_ m3; soft_brake_pwm_ := soft_brake_pwm_ m3;
       beh_ := beh_ m3; soft_timer_ := true;
       soft_active_ := soft_active_ m3; soft_phase_ := soft_phase_ m3;
       soft_level_ := soft_level_ m3; soft_hz_ := soft_hz_ m3;
       soft_us_brake_ := soft_us_brake_ m3;
       soft_us_coast_ := soft_us_coast_ m3;
       hw := hw_call esp_timer_create (hw m3) |}
  else m3.

(** [setup(cfg)]. *)
Definition setup1 (cfg : MotorMCPWMConfig) (m : t) : t :=
  let def := MotorBehaviorConfig_default in
  let def :=
    if (en_pin cfg <? 0)
       && bool_decide (freewheel_mode def = HiZ)
    then with_freewheel_mode HiZ_Awake def else def in
  setup2 cfg def m.

(** The one-shot expiring: the timer service clears the arming and runs
    the callback.  Nothing happens on an idle timer. *)
Definition timer_fire (m : t) : option t :=
  match timer (hw m) with
  | Some _ =>
      Some (softBrakeISR
              (set_hw (fun h =>
                 {| duty_a := duty_a h; duty_b := duty_b h;
                    en_level := en_level h; timer := None;
                    calls := calls h |}) m))
  | None => None
  end.

(** ** Notions used to state the properties *)

(** The value [recomputeSoftDurations] gives [soft_level_] for a stored
    duty [pwm]. *)
Definition level_of (pwm : Z) : spec_float :=
  MathFns.clampf
    (Float.div32 (Float.of_Z32 pwm) (Float.of_Z32 kPwmMaxInput_))
    Float.zero Float.one.

(** The last part of [startSoftBrake], reached when neither the "pure
    coast" nor the "pure hard brake" test holds. *)
Definition engage (undefined_int64 : spec_float -> Z) (m : t) : t :=
  let m2 :=
    split_period undefined_int64
      (recomputeSoftDurations undefined_int64 m) in
  if negb (soft_active_ m2) then
    let m3 := set_soft_active true (set_soft_phase Coast m2) in
    scheduleNextPhase (applyPhase (soft_phase_ m3) m3)
  else m2.

(** The configurations under which [setFreewheel] calls [startSoftBrake]
    with a duty that sends it back to [setFreewheel]. *)
Definition loops (m : t) : Prop :=
  freewheel_mode (beh_ m) = DitherBrake /\
  MathFns.clamp (dither_pwm (beh_ m)) 0 kPwmMaxInput_ <= 1.

(** The minimum-length rule of [recomputeSoftDurations]. *)
Definition floored (us : Z) : Z :=
  if (us <? kMinPhaseUs) && (us >? 0) then kMinPhaseUs else us.

(** States the driver can be in between two calls: the stored duty is
    within range, [en_state_] mirrors the enable pin, and the one-shot
    is armed (with at least the minimum delay) exactly while the
    soft-brake cycle is active. *)
Definition wf (m : t) : Prop :=
  0 <= soft_brake_pwm_ m <= kPwmMaxInput_ /\
  en_level (hw m) = en_state_ m /\
  match timer (hw m) with
  | Some us => soft_active_ m = true /\ kMinPhaseUs <= us
  | None => soft_active_ m = false
  end.

(** The enable line is where [on] puts it, when the driver has one. *)
Definition enable_is (on : bool) (m : t) : Prop :=
  use_en_ m = true -> en_level (hw m) = on.

(** Coasting as the configured freewheel sub-mode prescribes. *)
Definition freewheeling (m : t) : Prop :=
  soft_active_ m = false /\ timer (hw m) = None /\
  duty_a (hw m) = Float.zero /\ duty_b (hw m) = Float.zero /\
  match freewheel_mode (beh_ m) with
  | HiZ => enable_is false m
  | HiZ_Awake => enable_is true m
  | DitherBrake => False
  end.

(** Both arms shorted, driver enabled, no cycle running. *)
Definition hard_braking (m : t) : Prop :=
  soft_active_ m = false /\ timer (hw m) = None /\
  duty_a (hw m) = Float.hundred /\ duty_b (hw m) = Float.hundred /\
  enable_is true m.

(** The dither cycle is running and its next phase flip is scheduled. *)
Definition dithering (m : t) : Prop :=
  soft_active_ m = true /\
  exists us, timer (hw m) = Some us /\ kMinPhaseUs <= us.

(** The calls that leave soft braking for another mode. *)
Inductive ModeChange : Set :=
| ToSpeed (speed : Z) (dir : Dir)
| ToFreewheel
| ToHardBrake.

Definition mode_change (undefined_int64 : spec_float -> Z) (fuel : nat)
    (c : ModeChange) (m : t) : option t :=
  match c with
  | ToSpeed speed dir => setSpeed undefined_int64 fuel speed dir m
  | ToFreewheel => setFreewheel undefined_int64 fuel m
  | ToHardBrake => Some (setHardBrake m)
  end.

(** A speed change is a mode change when the clamped speed is not zero. *)
Definition valid_change (c : ModeChange) : Prop :=
  match c with
  | ToSpeed speed _ => MathFns.clamp speed 0 kPwmMaxInput_ <> 0
  | _ => True
  end.

(** The mode changes that themselves engage the dither cycle:
    [setFreewheel] in the DitherBrake sub-mode, unless the dither duty is
    in the "pure hard brake" range. *)
Definition rearms (c : ModeChange) (m : t) : bool :=
  match c with
  | ToFreewheel =>
      bool_decide (freewheel_mode (beh_ m) = DitherBrake)
      && (MathFns.clamp (dither_pwm (beh_ m)) 0 kPwmMaxInput_ <? 1022)
  | _ => false
  end.

(** The drive motor of [app_config.h]: pins 37, 38 and enable on 39. *)
Definition DRIVE_MCPWM : MotorMCPWMConfig :=
  {| lpwm_pin := 37; rpwm_pin := 38; en_pin := 39 |}.

(** The duty [setSpeed] writes for a clamped speed, and the two outputs
    seen from the direction of travel. *)
Definition drive_duty (clamped : Z) : spec_float :=
  Float.mul32 (Float.of_Z32 clamped) percent_per_count_.

Definition driven (dir : Dir) (m : t) : spec_float :=
  match dir with CW => duty_a (hw m) | CCW => duty_b (hw m) end.

Definition idle (dir : Dir) (m : t) : spec_float :=
  match dir with CW => duty_b (hw m) | CCW => duty_a (hw m) end.

(** Finite and strictly positive. *)
Definition positive_finite (f : spec_float) : bool :=
  match f with S754_finite false _ _ => true | _ => false end.

(** The truncated period and the truncated brake share of it, as the
    casts of [recomputeSoftDurations] and [startSoftBrake] compute them
    from [soft_hz_] and the stored duty. *)
Definition period_int (undefined_int64 : spec_float -> Z) (m : t) : Z :=
  Float.to_int64 undefined_int64 (period_us m).

Definition brake_int (undefined_int64 : spec_float -> Z) (m : t) : Z :=
  Float.to_int64 undefined_int64
    (Float.mul64 (period_us m)
       (Float.to_double (level_of (soft_brake_pwm_ m)))).

(** The duration [scheduleNextPhase] arms the one-shot with. *)
Definition armed_us (m : t) : Z :=
  Z.max kMinPhaseUs
    match soft_phase_ m with
    | Brake => soft_us_brake_ m
    | Coast => soft_us_coast_ m
    end.

(** For evaluating examples, the platform is taken to yield zero on an
    undefined conversion. *)
Definition no_int64 : spec_float -> Z := fun _ => 0.

(** A fresh driver after [setup(DRIVE_MCPWM, beh)]. *)
Definition configured (beh : MotorBehaviorConfig) : t :=
  setup2 DRIVE_MCPWM beh (make Hardware_reset).

(** The same driver after [setSpeed(0, CW)] with the default soft-brake
    duty of 50: the dither cycle is running. *)
Definition dithering_example (beh : MotorBehaviorConfig) : t :=
  engage no_int64 (configured beh).

(** The calls [stopSoftBrake] and [setEnable] issue on state [m]. *)
Definition stop_calls (m : t) : list HwCall :=
  if soft_active_ m then [esp_timer_stop] else [].

Definition enable_calls (on : bool) (m : t) : list HwCall :=
  if use_en_ m && negb (eqb (en_state_ m) on)
  then [digitalWrite (en_pin_ m) on] else [].

(** No call of the list stops the timer. *)
Definition no_stop (l : list HwCall) : Prop :=
  Forall (fun c => c <> esp_timer_stop) l.

(** [getMaxPwmInput()]. *)
Definition getMaxPwmInput : Z := kPwmMaxInput_.

(** What can happen to a configured driver: one of its public commands is
    called, or the armed one-shot expires and the callback runs. *)
Inductive Call : Set :=
| CallSetSpeed (speed : Z) (dir : Dir)
| CallSetFreewheel
| CallSetHardBrake
| CallSetSoftBrakePWM (pwm : Z)
| TimerExpires.

Definition exec (undefined_int64 : spec_float -> Z) (fuel : nat)
    (c : Call) (m : t) : option t :=
  match c with
  | CallSetSpeed speed dir => setSpeed undefined_int64 fuel speed dir m
  | CallSetFreewheel => setFreewheel undefined_int64 fuel m
  | CallSetHardBrake => Some (setHardBrake m)
  | CallSetSoftBrakePWM pwm => Some (setSoftBrakePWM undefined_int64 pwm m)
  | TimerExpires => timer_fire m
  end.

(** A history of such events, oldest first; [None] when a call does not
    return within [fuel] or the timer is said to expire while idle. *)
Fixpoint exec_all (undefined_int64 : spec_float -> Z) (fuel : nat)
    (cs : list Call) (m : t) : option t :=
  match cs with
  | [] => Some m
  | c :: rest =>
      match exec undefined_int64 fuel c m with
      | Some m' => exec_all undefined_int64 fuel rest m'
      | None => None
      end
  end.

(** The duties the driver writes: 0%, 100%, or the drive duty of a clamped
    speed between 1 and the maximum. *)
Definition duty_written (percent : spec_float) : Prop :=
  percent = Float.zero \/ percent = Float.hundred \/
  exists clamped, 1 <= clamped <= kPwmMaxInput_ /\
                  percent = drive_duty clamped.

(** The hardware calls a configured driver may issue. *)
Definition allowed_call (m : t) (c : HwCall) : Prop :=
  match c with
  | esp_timer_stop => True
  | esp_timer_start_once timeout_us => kMinPhaseUs <= timeout_us
  | digitalWrite pin _ => use_en_ m = true /\ pin = en_pin_ m
  | mcpwm_set_duty _ percent => duty_written percent
  | _ => False
  end.

(** [r] is [m] after some allowed calls, with the same enable-pin
    configuration. *)
Definition extends (m r : t) : Prop :=
  use_en_ r = use_en_ m /\ en_pin_ r = en_pin_ m /\
  exists new, calls (hw r) = calls (hw m) ++ new /\
              Forall (allowed_call m) new.

(** [setFreewheel()] and [startSoftBrake()] once more, for the calls that
    do not return: where the bound on the call depth is reached, the state
    the next nested call starts from is kept instead of dropped. *)
Inductive Progress : Type :=
| Returned (m : t)   (* the call has returned, leaving the driver in [m] *)
| InCall (m : t).    (* the nested call at the bound is entered on [m] *)

Fixpoint setFreewheel_upto (undefined_int64 : spec_float -> Z)
    (fuel : nat) (m : t) : Progress :=
  match fuel with
  | O => InCall m
  | S fuel =>
      let m1 := stopSoftBrake m in
      match freewheel_mode (beh_ m1) with
      | HiZ => Returned (writeAB Float.zero Float.zero (setEnable false m1))
      | HiZ_Awake =>
          Returned (writeAB Float.zero Float.zero (setEnable true m1))
      | DitherBrake =>
          startSoftBrake_upto undefined_int64 fuel
            (setSoftBrakePWM undefined_int64 (dither_pwm (beh_ m1)) m1)
      end
  end
with startSoftBrake_upto (undefined_int64 : spec_float -> Z)
    (fuel : nat) (m : t) : Progress :=
  match fuel with
  | O => InCall m
  | S fuel =>
      let m1 := recomputeSoftDurations undefined_int64 m in
      if SFleb (soft_level_ m1) Float.lit_0_001f then
        setFreewheel_upto undefined_int64 fuel (stopSoftBrake m1)
      else if SFleb Float.lit_0_999f (soft_level_ m1) then
        Returned (writeAB Float.hundred Float.hundred
                    (setEnable true (stopSoftBrake m1)))
      else
        let m2 := split_period undefined_int64 m1 in
        if negb (soft_active_ m2) then
          let m3 := set_soft_active true (set_soft_phase Coast m2) in
          Returned (scheduleNextPhase (applyPhase (soft_phase_ m3) m3))
        else Returned m2
  end.

Definition returned (p : Progress) : option t :=
  match p with Returned r => Some r | InCall _ => None end.

End HBridgeMotor.

(* ===================================================================== *)
(** * Properties of the button handler *)
(* ===================================================================== *)

Module ButtonHandlerSpec.
Import ButtonHandler.

Lemma update_button_wf N now read_func b i :
  wf N b -> wf N (update_button now read_func b i).
Proof.
  unfold wf, update_button. intros (Hp & Hs & Hc & Hst & He).
  repeat case_match; cbn; rewrite ?length_insert; auto.
Qed.

Lemma update_button_frame now read_func b i :
  pins_ (update_button now read_func b i) = pins_ b /\
  timing_ (update_button now read_func b i) = timing_ b.
Proof. unfold update_button. repeat case_match; cbn; auto. Qed.

Lemma update_button_other now read_func b i j :
  i <> j -> slots_of (update_button now read_func b j) i = slots_of b i.
Proof.
  intros Hij. unfold update_button, slots_of.
  repeat case_match; cbn;
    rewrite ?list_lookup_total_insert_ne by auto; reflexivity.
Qed.

Lemma update_button_self N now read_func b i :
  wf N b -> (i < N)%nat ->
  slots_of (update_button now read_func b i) i =
  step (timing_ b) now (read_func (pins_ b !!! i)) (slots_of b i).
Proof.
  intros (Hp & Hs & Hc & Hst & He) Hi.
  unfold update_button, step, accepts, slots_of. cbn.
  destruct (negb (eqb _ _)); cbn; [|reflexivity].
  destruct (_ <=? _); cbn; [|reflexivity].
  destruct (read_func _) eqn:Hr; cbn;
    rewrite ?list_lookup_total_insert_eq by lia;
    rewrite ?list_lookup_total_insert_ne by lia; reflexivity.
Qed.

(** The loop over buttons [s], [s+1], ..., [s+n-1]. *)
Lemma update_loop N now read_func i : forall n s b,
  wf N b -> (s + n <= N)%nat ->
  wf N (fold_left (update_button now read_func) (seq s n) b) /\
  pins_ (fold_left (update_button now read_func) (seq s n) b) = pins_ b /\
  timing_ (fold_left (update_button now read_func) (seq s n) b)
    = timing_ b /\
  slots_of (fold_left (update_button now read_func) (seq s n) b) i =
    if bool_decide (s <= i < s + n)%nat
    then step (timing_ b) now (read_func (pins_ b !!! i)) (slots_of b i)
    else slots_of b i.
Proof.
  induction n as [|n IH]; intros s b Hwf Hn.
  - rewrite bool_decide_eq_false_2 by lia. cbn. auto.
  - pose proof (update_button_wf N now read_func b s Hwf) as Hwf1.
    destruct (update_button_frame now read_func b s) as [Hp1 Ht1].
    destruct (IH (S s) _ Hwf1 ltac:(lia)) as (Hwf' & Hp' & Ht' & Hv').
    change (fold_left (update_button now read_func) (seq s (S n)) b)
      with (fold_left (update_button now read_func) (seq (S s) n)
              (update_button now read_func b s)).
    split; [exact Hwf'|]. split; [congruence|]. split; [congruence|].
    rewrite Hv', Hp1, Ht1.
    destruct (decide (i = s)) as [->|Hne].
    + rewrite bool_decide_eq_false_2 by lia.
      rewrite bool_decide_eq_true_2 by lia.
      apply (update_button_self N); auto; lia.
    + rewrite update_button_other by auto.
      destruct (decide (S s <= i < S s + n)%nat).
      * rewrite !bool_decide_eq_true_2 by lia. reflexivity.
      * rewrite !bool_decide_eq_false_2 by lia. reflexivity.
Qed.

Lemma update_wf N now read_func b :
  wf N b -> wf N (update N now read_func b).
Proof. intros H. apply (update_loop N now read_func 0%nat N 0%nat b H). lia. Qed.

Lemma update_frame N now read_func b :
  wf N b ->
  pins_ (update N now read_func b) = pins_ b /\
  timing_ (update N now read_func b) = timing_ b.
Proof.
  intros H.
  destruct (update_loop N now read_func 0%nat N 0%nat b H ltac:(lia))
    as (_ & ? & ? & _). auto.
Qed.

(** Within one [update], button [i] is processed from its own slots only. *)
Lemma update_slots N now read_func b i :
  wf N b -> (i < N)%nat ->
  slots_of (update N now read_func b) i =
  step (timing_ b) now (read_func (pins_ b !!! i)) (slots_of b i).
Proof.
  intros H Hi.
  destruct (update_loop N now read_func i N 0%nat b H ltac:(lia))
    as (_ & _ & _ & Hv).
  rewrite bool_decide_eq_true_2 in Hv by lia. exact Hv.
Qed.

Lemma run_wf N scans : forall b, wf N b -> wf N (run N scans b).
Proof.
  induction scans as [|s scans IH]; intros b H; cbn; auto.
  apply IH, update_wf, H.
Qed.

Lemma classify_Long timing d :
  classify timing d = ButtonPressType.Long <-> long_press_ms timing <= d.
Proof. unfold classify. repeat case_match; split; (congruence || lia). Qed.

Lemma classify_Short timing d :
  classify timing d = ButtonPressType.Short <->
  short_press_ms timing <= d < long_press_ms timing.
Proof. unfold classify. repeat case_match; split; (congruence || lia). Qed.

Lemma classify_None timing d :
  classify timing d = ButtonPressType.None <->
  d < short_press_ms timing /\ d < long_press_ms timing.
Proof. unfold classify. repeat case_match; split; (congruence || lia). Qed.

Lemma step_event_kept timing now pressed s :
  accepts timing now pressed s && negb pressed = false ->
  sl_event (step timing now pressed s) = sl_event s.
Proof.
  unfold step. destruct (accepts _ _ _ _), pressed; cbn; congruence.
Qed.

Lemma step_rejected timing now pressed s :
  u32 (now - sl_change s) < debounce_ms timing ->
  step timing now pressed s = s.
Proof.
  intros H. unfold step, accepts.
  replace (debounce_ms timing <=? _) with false by (symmetry; lia).
  rewrite andb_false_r. reflexivity.
Qed.

(** ** Press classification (C1) *)

(** C1.  When button [i] is held and [update] accepts a release at [now],
    with [d = now - press_start_[i]] in [uint32_t] arithmetic, the pending
    event becomes Long iff [d >= long_press_ms], Short iff
    [short_press_ms <= d < long_press_ms], and None iff
    [d < short_press_ms].  The thresholds are taken in the order the
    timing policy requires, [short_press_ms <= long_press_ms]. *)
Theorem release_classification
    (N : nat) (b : t) (now : Z) (read_func : Z -> bool) (i : nat) :
  wf N b -> (i < N)%nat ->
  short_press_ms (timing_ b) <= long_press_ms (timing_ b) ->
  read_func (pins_ b !!! i) = false ->
  accepts (timing_ b) now false (slots_of b i) = true ->
  let d := u32 (now - press_start_ b !!! i) in
  let e := event_ (update N now read_func b) !!! i in
  (e = ButtonPressType.Long <-> long_press_ms (timing_ b) <= d) /\
  (e = ButtonPressType.Short <->
     short_press_ms (timing_ b) <= d < long_press_ms (timing_ b)) /\
  (e = ButtonPressType.None <-> d < short_press_ms (timing_ b)).
Proof.
  intros Hwf Hi Hle Hraw Hacc d e.
  assert (He : e = classify (timing_ b) d).
  { pose proof (update_slots N now read_func b i Hwf Hi) as Hs.
    apply (f_equal sl_event) in Hs. cbn in Hs. subst e. rewrite Hs.
    unfold step. rewrite Hraw, Hacc. reflexivity. }
  rewrite He. split; [apply classify_Long|].
  split; [apply classify_Short|].
  rewrite classify_None. lia.
Qed.

Lemma release_classification_witness :
  let b := update 1 1000 down (one_button ButtonTimingConfig_default) in
  let e := event_ (update 1 1500 up b) !!! 0%nat in
  (e = ButtonPressType.Long <-> 1000 <= u32 (1500 - 1000)) /\
  (e = ButtonPressType.Short <-> 200 <= u32 (1500 - 1000) < 1000) /\
  (e = ButtonPressType.None <-> u32 (1500 - 1000) < 200).
Proof.
  intros b.
  apply (release_classification 1 b 1500 up 0); try reflexivity.
  - repeat split; reflexivity.
  - lia.
  - vm_compute. discriminate.
Defined.

(** Without the order of the thresholds the first two equivalences stand
    and the third reads "[d] is below both thresholds". *)
Lemma release_classification_any_thresholds
    (N : nat) (b : t) (now : Z) (read_func : Z -> bool) (i : nat) :
  wf N b -> (i < N)%nat ->
  read_func (pins_ b !!! i) = false ->
  accepts (timing_ b) now false (slots_of b i) = true ->
  event_ (update N now read_func b) !!! i
  = classify (timing_ b) (u32 (now - press_start_ b !!! i)).
Proof.
  intros Hwf Hi Hraw Hacc.
  pose proof (update_slots N now read_func b i Hwf Hi) as Hs.
  apply (f_equal sl_event) in Hs. cbn in Hs. rewrite Hs.
  unfold step. rewrite Hraw, Hacc. reflexivity.
Qed.

(** With [short_press_ms = 1000 > long_press_ms = 200], a press held
    500 ms is classified Long although it is shorter than
    [short_press_ms]. *)
Example thresholds_out_of_order :
  let timing :=
    {| debounce_ms := 30; short_press_ms := 1000; long_press_ms := 200 |} in
  fst (getPressType 1 0
         (run 1 [(1000, down); (1500, up)] (one_button timing)))
  = ButtonPressType.Long.
Proof. reflexivity. Qed.

(** Scans that each leave the slots of button [i] alone leave them alone
    together. *)
Lemma run_slots_fixed N i (scans : list scan) : forall b,
  wf N b -> (i < N)%nat ->
  Forall (fun s => step (timing_ b) (fst s) (snd s (pins_ b !!! i))
                     (slots_of b i) = slots_of b i) scans ->
  wf N (run N scans b) /\ pins_ (run N scans b) = pins_ b /\
  timing_ (run N scans b) = timing_ b /\
  slots_of (run N scans b) i = slots_of b i.
Proof.
  induction scans as [|s scans IH]; intros b Hwf Hi Hall; [cbn; auto|].
  inversion Hall as [|? ? Hs Hrest]; subst.
  destruct (update_frame N (fst s) (snd s) b Hwf) as [Hp Ht].
  pose proof (update_slots N (fst s) (snd s) b i Hwf Hi) as Hsl.
  rewrite Hs in Hsl.
  change (run N (s :: scans) b)
    with (run N scans (update N (fst s) (snd s) b)).
  destruct (IH (update N (fst s) (snd s) b)) as (Hw' & Hp' & Ht' & Hs');
    [apply update_wf, Hwf | exact Hi | | ].
  - rewrite Hp, Ht, Hsl. exact Hrest.
  - split; [exact Hw'|]. repeat split; congruence.
Qed.

(** A whole press: accepted at [t_press], held over any number of scans
    that read the button pressed, released at [t_release]. *)
Lemma press_release_pair N b i t_press t_release (held : list scan)
    read_press read_release :
  wf N b -> (i < N)%nat ->
  read_press (pins_ b !!! i) = true ->
  accepts (timing_ b) t_press true (slots_of b i) = true ->
  Forall (fun s => snd s (pins_ b !!! i) = true) held ->
  read_release (pins_ b !!! i) = false ->
  debounce_ms (timing_ b) <= u32 (t_release - t_press) ->
  event_ (update N t_release read_release
            (run N held (update N t_press read_press b))) !!! i
  = classify (timing_ b) (u32 (t_release - t_press)).
Proof.
  intros Hwf Hi Hdown Hacc Hheld Hup Hdeb.
  set (b1 := update N t_press read_press b).
  assert (Hwf1 : wf N b1) by (apply update_wf, Hwf).
  destruct (update_frame N t_press read_press b Hwf) as [Hp1 Ht1].
  fold b1 in Hp1, Ht1.
  assert (Hs1 : slots_of b1 i =
                {| sl_state := true; sl_change := t_press;
                   sl_start := t_press;
                   sl_event := sl_event (slots_of b i) |}).
  { unfold b1. rewrite (update_slots N) by auto.
    unfold step. rewrite Hdown, Hacc. reflexivity. }
  destruct (run_slots_fixed N i held b1 Hwf1 Hi)
    as (Hwf2 & Hp2 & Ht2 & Hs2).
  { rewrite Hp1, Ht1, Hs1. eapply Forall_impl; [exact Hheld|].
    intros s Hs. cbn in Hs. cbn. rewrite Hs. reflexivity. }
  pose proof (update_slots N t_release read_release _ i Hwf2 Hi) as Hs3.
  apply (f_equal sl_event) in Hs3. cbn in Hs3. rewrite Hs3.
  rewrite Hp2, Ht2, Hs2, Hp1, Ht1, Hs1, Hup.
  unfold step, accepts. cbn.
  replace (_ <=? _) with true by (symmetry; lia). reflexivity.
Qed.

(** Scenarios 1 and 2 of the specification: with debounce 30, short 200
    and long 1000, a press held 500 ms reads back Short and one held
    1200 ms reads back Long. *)
Example held_500ms_is_short :
  fst (getPressType 1 0
         (run 1 [(1000, down); (1250, down); (1500, up)]
            (one_button ButtonTimingConfig_default)))
  = ButtonPressType.Short.
Proof. reflexivity. Qed.

Example held_1200ms_is_long :
  fst (getPressType 1 0
         (run 1 [(1000, down); (2200, up)]
            (one_button ButtonTimingConfig_default)))
  = ButtonPressType.Long.
Proof. reflexivity. Qed.

(** ** Consuming the event (C7) *)

Lemma releases_false_event N i (scans : list scan) : forall b,
  wf N b -> (i < N)%nat ->
  releases N i scans b = false ->
  event_ (run N scans b) !!! i = event_ b !!! i.
Proof.
  induction scans as [|s scans IH]; intros b Hwf Hi Hrel; [reflexivity|].
  cbn in Hrel. apply orb_false_iff in Hrel as [Hhere Hrest].
  change (run N (s :: scans) b)
    with (run N scans (update N (fst s) (snd s) b)).
  rewrite IH by (auto using update_wf).
  pose proof (update_slots N (fst s) (snd s) b i Hwf Hi) as Hs.
  apply (f_equal sl_event) in Hs. cbn in Hs. rewrite Hs.
  apply step_event_kept. exact Hhere.
Qed.

(** C7.  [getPressType] returns the pending event of the button and
    leaves None in its place, touching nothing else; a second call, made
    at once or after scans in which the button had no accepted release,
    returns None; for an index that is out of range the call returns None
    and the handler is unchanged. *)
Theorem getPressType_consumes (N : nat) (b : t) (buttonId : nat) :
  wf N b ->
  ((buttonId < N)%nat ->
     fst (getPressType N buttonId b) = event_ b !!! buttonId /\
     snd (getPressType N buttonId b)
       = set_event (<[buttonId := ButtonPressType.None]>) b /\
     wf N (snd (getPressType N buttonId b)) /\
     (forall j, j <> buttonId ->
        slots_of (snd (getPressType N buttonId b)) j = slots_of b j) /\
     getPressType N buttonId (snd (getPressType N buttonId b))
       = (ButtonPressType.None, snd (getPressType N buttonId b)) /\
     (forall scans : list scan,
        releases N buttonId scans (snd (getPressType N buttonId b)) = false ->
        fst (getPressType N buttonId
               (run N scans (snd (getPressType N buttonId b))))
        = ButtonPressType.None)) /\
  ((N <= buttonId)%nat ->
     getPressType N buttonId b = (ButtonPressType.None, b)).
Proof.
  intros Hwf. pose proof Hwf as (Hp & Hs & Hc & Hst & He). split.
  - intros Hi. unfold getPressType.
    rewrite (proj2 (Nat.leb_gt N buttonId)) by lia. cbn.
    assert (Hwf1 : wf N (set_event (<[buttonId := ButtonPressType.None]>) b)).
    { unfold wf; cbn. rewrite length_insert. auto. }
    assert (Hnone : <[buttonId := ButtonPressType.None]> (event_ b)
                      !!! buttonId = ButtonPressType.None).
    { apply list_lookup_total_insert_eq. lia. }
    split; [reflexivity|]. split; [reflexivity|]. split; [exact Hwf1|].
    split; [|split].
    + intros j Hj. unfold slots_of; cbn.
      rewrite list_lookup_total_insert_ne by auto. reflexivity.
    + rewrite Hnone. f_equal. unfold set_event; cbn. f_equal.
      apply list_insert_id. apply list_lookup_insert_eq. lia.
    + intros scans Hrel.
      rewrite (releases_false_event N) by auto. exact Hnone.
  - intros Hi. unfold getPressType.
    rewrite (proj2 (Nat.leb_le N buttonId)) by lia. reflexivity.
Qed.

Lemma getPressType_consumes_witness :
  let b := run 1 [(1000, down); (1500, up)]
             (one_button ButtonTimingConfig_default) in
  fst (getPressType 1 0 b) = ButtonPressType.Short /\
  fst (getPressType 1 0 (snd (getPressType 1 0 b))) = ButtonPressType.None /\
  getPressType 1 3 b = (ButtonPressType.None, b).
Proof.
  intros b.
  assert (Hwf : wf 1 b) by (repeat split; reflexivity).
  destruct (getPressType_consumes 1 b 0 Hwf) as [Hin _].
  destruct (getPressType_consumes 1 b 3 Hwf) as [_ Hout].
  destruct (Hin ltac:(lia)) as (H1 & _ & _ & _ & H2 & _).
  split; [rewrite H1; reflexivity|].
  split; [rewrite H2; reflexivity|].
  apply Hout. lia.
Defined.

(** ** Debounce (C8) *)

(** C8, as the code has it.  The debounce test is a lock-out measured
    from the last accepted change: scans taken less than [debounce_ms]
    after [last_state_change_[i]] never change the debounced state of
    button [i] (nor its timestamps or pending event), whatever they read;
    a scan taken at or after [debounce_ms] that reads a different state
    is accepted at once. *)
Theorem debounce_lockout (N : nat) (b : t) (i : nat) :
  wf N b -> (i < N)%nat ->
  (forall scans : list scan,
     Forall (fun s => u32 (fst s - last_state_change_ b !!! i)
                      < debounce_ms (timing_ b)) scans ->
     slots_of (run N scans b) i = slots_of b i /\
     isPressed N i (run N scans b) = isPressed N i b) /\
  (forall now read_func,
     debounce_ms (timing_ b) <= u32 (now - last_state_change_ b !!! i) ->
     isPressed N i (update N now read_func b) = read_func (pins_ b !!! i)).
Proof.
  intros Hwf Hi. split.
  - intros scans Hall.
    destruct (run_slots_fixed N i scans b Hwf Hi) as (_ & _ & _ & Hs).
    { eapply Forall_impl; [exact Hall|]. intros s Hs. cbn in Hs.
      apply step_rejected. exact Hs. }
    split; [exact Hs|]. unfold isPressed.
    rewrite (proj2 (Nat.leb_gt N i)) by lia.
    apply (f_equal sl_state) in Hs. exact Hs.
  - intros now read_func Hdeb. unfold isPressed.
    rewrite (proj2 (Nat.leb_gt N i)) by lia.
    pose proof (update_slots N now read_func b i Hwf Hi) as Hs.
    apply (f_equal sl_state) in Hs. cbn in Hs. rewrite Hs.
    unfold step, accepts, slots_of. cbn.
    replace (_ <=? _) with true by (symmetry; lia). rewrite andb_true_r.
    destruct (read_func _), (last_state_ b !!! i); reflexivity.
Qed.

Lemma debounce_lockout_witness :
  let b := update 1 100 down (one_button ButtonTimingConfig_default) in
  isPressed 1 0 (run 1 [(110, up); (120, down); (129, up)] b)
  = isPressed 1 0 b.
Proof.
  intros b.
  assert (Hwf : wf 1 b) by (repeat split; reflexivity).
  destruct (debounce_lockout 1 b 0 Hwf ltac:(lia)) as [Hlock _].
  apply Hlock. repeat constructor; vm_compute; reflexivity.
Defined.

(** C8 as stated fails: raw transitions 10 ms apart, with debounce 30 ms,
    do change the debounced state.  The input toggles at 10, 20 and
    30 ms; the third sample comes 30 ms after the last accepted change
    (start-up, at 0) and is accepted although the input was stable for
    10 ms only. *)
Lemma chatter_changes_state :
  let b := one_button ButtonTimingConfig_default in
  let chatter := [(10, down); (20, up); (30, down)] in
  (20 - 10 < debounce_ms (timing_ b) /\ 30 - 20 < debounce_ms (timing_ b)) /\
  isPressed 1 0 b = false /\
  isPressed 1 0 (run 1 chatter b) = true.
Proof. cbv zeta. split; [split; reflexivity|]. split; reflexivity. Qed.

(** Scenario 3 of the specification, in the case the code supports: the
    second of two transitions 10 ms apart is ignored. *)
Example second_transition_ignored :
  let b := one_button ButtonTimingConfig_default in
  run 1 [(100, down); (110, up)] b = run 1 [(100, down)] b.
Proof. reflexivity. Qed.

(** ** Further properties of the handler *)

Lemma make_wf N buttonPins timing :
  (N <= length buttonPins)%nat -> wf N (make N buttonPins timing).
Proof.
  intros Hlen. unfold wf, make; cbn.
  rewrite length_take_le, !length_replicate by lia. auto.
Qed.

(** The constructor.  Given at least [N] pins, the handler it builds has
    arrays of length [N], reports no button pressed, and has no event
    pending: [getPressType] returns None and leaves the handler as it is,
    for indices in and out of range. *)
Theorem make_initial (N : nat) (buttonPins : list Z)
    (timing : ButtonTimingConfig) :
  (N <= length buttonPins)%nat ->
  wf N (make N buttonPins timing) /\
  (forall id, isPressed N id (make N buttonPins timing) = false) /\
  (forall id, getPressType N id (make N buttonPins timing)
              = (ButtonPressType.None, make N buttonPins timing)).
Proof.
  intros Hlen. split; [|split].
  - apply make_wf, Hlen.
  - intros id. unfold isPressed.
    destruct (N <=? id)%nat eqn:Hid; [reflexivity|].
    apply Nat.leb_gt in Hid. cbn.
    apply lookup_total_replicate_2. exact Hid.
  - intros id. unfold getPressType.
    destruct (N <=? id)%nat eqn:Hid; [reflexivity|].
    apply Nat.leb_gt in Hid. cbn.
    rewrite lookup_total_replicate_2 by exact Hid.
    unfold set_event, make; cbn. do 2 f_equal.
    apply list_insert_id, lookup_replicate_2, Hid.
Qed.

Lemma make_initial_witness :
  isPressed 2 1 (make 2 [7; 8] ButtonTimingConfig_default) = false /\
  fst (getPressType 2 5 (make 2 [7; 8] ButtonTimingConfig_default))
  = ButtonPressType.None.
Proof.
  destruct (make_initial 2 [7; 8] ButtonTimingConfig_default) as (_ & Hp & He).
  - cbn. lia.
  - split; [apply Hp|]. rewrite He. reflexivity.
Defined.

Lemma update_button_rejected now read_func b i :
  accepts (timing_ b) now (read_func (pins_ b !!! i)) (slots_of b i) = false ->
  update_button now read_func b i = b.
Proof.
  unfold accepts, update_button, slots_of. cbn. intros H.
  destruct (negb _); [|reflexivity].
  cbn in H. rewrite H. reflexivity.
Qed.

(** A scan in which no button shows an accepted change (each reads as its
    debounced state, or differs within the debounce window) returns the
    handler unchanged: no timestamp moves, no pending event is touched. *)
Theorem update_without_accepted_change
    (N : nat) (now : Z) (read_func : Z -> bool) (b : t) :
  (forall i, (i < N)%nat ->
     accepts (timing_ b) now (read_func (pins_ b !!! i)) (slots_of b i)
     = false) ->
  update N now read_func b = b.
Proof.
  unfold update. intros H.
  assert (Hgen : forall n s, (s + n <= N)%nat ->
            fold_left (update_button now read_func) (seq s n) b = b).
  { induction n as [|n IH]; intros s Hs; [reflexivity|].
    cbn [seq fold_left].
    rewrite update_button_rejected by (apply H; lia).
    apply IH. lia. }
  apply Hgen. lia.
Qed.

Lemma update_without_accepted_change_witness :
  let b := update 1 100 down (one_button ButtonTimingConfig_default) in
  update 1 5000 down b = b.
Proof.
  intros b. apply update_without_accepted_change.
  intros i Hi. assert (i = 0%nat) as -> by lia.
  vm_compute. reflexivity.
Defined.

(** Buttons do not influence each other: what a scan does to the slots of
    button [i] is determined by those slots, the timing policy and what is
    read on the button's own pin. *)
Theorem update_buttons_independent
    (N : nat) (now : Z) (read1 read2 : Z -> bool) (b1 b2 : t) (i : nat) :
  wf N b1 -> wf N b2 -> (i < N)%nat ->
  timing_ b1 = timing_ b2 ->
  slots_of b1 i = slots_of b2 i ->
  read1 (pins_ b1 !!! i) = read2 (pins_ b2 !!! i) ->
  slots_of (update N now read1 b1) i = slots_of (update N now read2 b2) i.
Proof.
  intros Hwf1 Hwf2 Hi Ht Hs Hr.
  rewrite !(update_slots N) by assumption.
  rewrite Ht, Hs, Hr. reflexivity.
Qed.

Lemma update_buttons_independent_witness :
  let b1 := make 2 [7; 8] ButtonTimingConfig_default in
  let b2 := update 2 100 (fun pin => pin =? 8) b1 in
  slots_of (update 2 200 down b1) 0 = slots_of (update 2 200 down b2) 0.
Proof.
  intros b1 b2.
  apply (update_buttons_independent 2 200 down down b1 b2 0);
    try (vm_compute; reflexivity).
  - repeat split; reflexivity.
  - repeat split; reflexivity.
  - lia.
Defined.

Lemma step_consistent timing now pressed s :
  (if sl_state s then sl_start s = sl_change s else sl_start s = 0) ->
  let s' := step timing now pressed s in
  if sl_state s' then sl_start s' = sl_change s' else sl_start s' = 0.
Proof.
  unfold step. destruct (accepts _ _ _ _), pressed; cbn; auto.
Qed.

Lemma run_from_make N buttonPins timing (scans : list scan) i :
  (N <= length buttonPins)%nat -> (i < N)%nat ->
  let b := run N scans (make N buttonPins timing) in
  wf N b /\ pins_ b = take N buttonPins /\ timing_ b = timing /\
  press_start_consistent b i.
Proof.
  intros Hlen Hi.
  pose proof (make_wf N buttonPins timing Hlen) as Hwf0.
  assert (Hinv0 : press_start_consistent (make N buttonPins timing) i).
  { unfold press_start_consistent, make; cbn.
    rewrite !lookup_total_replicate_2 by exact Hi. reflexivity. }
  change (take N buttonPins) with (pins_ (make N buttonPins timing)).
  change timing with (timing_ (make N buttonPins timing)) at 3.
  generalize dependent (make N buttonPins timing). clear Hlen.
  induction scans as [|s scans IH]; intros b Hwf Hinv; [cbn; auto|].
  change (run N (s :: scans) b)
    with (run N scans (update N (fst s) (snd s) b)).
  destruct (update_frame N (fst s) (snd s) b Hwf) as [Hp Ht].
  rewrite <- Hp, <- Ht. apply IH; [apply update_wf, Hwf|].
  pose proof (update_slots N (fst s) (snd s) b i Hwf Hi) as Hs.
  pose proof (step_consistent (timing_ b) (fst s)
                (snd s (pins_ b !!! i)) (slots_of b i) Hinv) as Hstep.
  cbv zeta in Hstep. rewrite <- Hs in Hstep. exact Hstep.
Qed.

(** An invariant of every handler reached from the constructor by scans:
    the arrays keep their length, pins and timing policy are never
    written, and for each button [press_start_] is the time of the accepted
    press while the button is pressed and 0 while it is released. *)
Theorem reachable_invariant
    (N : nat) (buttonPins : list Z) (timing : ButtonTimingConfig)
    (scans : list scan) (i : nat) :
  (N <= length buttonPins)%nat -> (i < N)%nat ->
  let b := run N scans (make N buttonPins timing) in
  wf N b /\ pins_ b = take N buttonPins /\ timing_ b = timing /\
  press_start_consistent b i.
Proof. exact (run_from_make N buttonPins timing scans i). Qed.

Lemma reachable_invariant_witness :
  let b := run 1 [(100, down); (300, down)]
             (make 1 [7] ButtonTimingConfig_default) in
  press_start_ b !!! 0%nat = 100 /\ last_state_change_ b !!! 0%nat = 100.
Proof.
  intros b.
  destruct (reachable_invariant 1 [7] ButtonTimingConfig_default
              [(100, down); (300, down)] 0) as (_ & _ & _ & H).
  - cbn. lia.
  - lia.
  - fold b in H. split; [|vm_compute; reflexivity].
    unfold press_start_consistent in H.
    change (last_state_ b !!! 0%nat) with true in H.
    rewrite H. vm_compute. reflexivity.
Defined.

(** On a handler reached from the constructor, a release is accepted only
    [debounce_ms] or more after the press was accepted, so the measured
    duration is at least [debounce_ms]; when [short_press_ms] is not above
    [debounce_ms], an accepted release therefore always leaves a Short or
    a Long event, never None. *)
Theorem accepted_release_duration
    (N : nat) (buttonPins : list Z) (timing : ButtonTimingConfig)
    (scans : list scan) (i : nat) (now : Z) (read_func : Z -> bool) :
  (N <= length buttonPins)%nat -> (i < N)%nat ->
  let b := run N scans (make N buttonPins timing) in
  read_func (pins_ b !!! i) = false ->
  accepts timing now false (slots_of b i) = true ->
  debounce_ms timing <= u32 (now - press_start_ b !!! i) /\
  event_ (update N now read_func b) !!! i
    = classify timing (u32 (now - press_start_ b !!! i)) /\
  (short_press_ms timing <= debounce_ms timing ->
   event_ (update N now read_func b) !!! i <> ButtonPressType.None).
Proof.
  intros Hlen Hi b Hraw Hacc.
  destruct (run_from_make N buttonPins timing scans i Hlen Hi)
    as (Hwf & _ & Ht & Hinv).
  fold b in Hwf, Ht, Hinv.
  assert (Hd : debounce_ms timing <= u32 (now - press_start_ b !!! i)).
  { unfold accepts, slots_of in Hacc. cbn in Hacc.
    unfold press_start_consistent in Hinv.
    destruct (last_state_ b !!! i); [|discriminate].
    rewrite Hinv. cbn in Hacc. lia. }
  assert (He : event_ (update N now read_func b) !!! i
               = classify timing (u32 (now - press_start_ b !!! i))).
  { rewrite <- Ht.
    apply release_classification_any_thresholds; rewrite ?Ht; assumption. }
  split; [exact Hd|]. split; [exact He|].
  intros Hshort. rewrite He, classify_None. lia.
Qed.

Lemma accepted_release_duration_witness :
  let timing :=
    {| debounce_ms := 30; short_press_ms := 20; long_press_ms := 1000 |} in
  event_ (update 1 140 up (run 1 [(100, down)] (make 1 [7] timing)))
    !!! 0%nat
  <> ButtonPressType.None.
Proof.
  intros timing.
  destruct (accepted_release_duration 1 [7] timing [(100, down)] 0 140 up)
    as (_ & _ & H).
  - cbn. lia.
  - lia.
  - reflexivity.
  - vm_compute. reflexivity.
  - apply H. vm_compute. discriminate.
Defined.

(** A whole press.  When a press is accepted at [t_press], any number of
    scans then read the button pressed, and a release is read
    [debounce_ms] or more after [t_press], the pending event becomes the
    classification of [t_release - t_press]: the scans in between do not
    move the start of the press, and whatever event was pending before is
    overwritten. *)
Theorem whole_press_event
    (N : nat) (b : t) (i : nat) (t_press t_release : Z) (held : list scan)
    (read_press read_release : Z -> bool) :
  wf N b -> (i < N)%nat ->
  read_press (pins_ b !!! i) = true ->
  accepts (timing_ b) t_press true (slots_of b i) = true ->
  Forall (fun s => snd s (pins_ b !!! i) = true) held ->
  read_release (pins_ b !!! i) = false ->
  debounce_ms (timing_ b) <= u32 (t_release - t_press) ->
  fst (getPressType N i
         (update N t_release read_release
            (run N held (update N t_press read_press b))))
  = classify (timing_ b) (u32 (t_release - t_press)).
Proof.
  intros Hwf Hi Hdown Hacc Hheld Hup Hdeb.
  unfold getPressType. rewrite (proj2 (Nat.leb_gt N i)) by lia. cbn.
  apply press_release_pair; assumption.
Qed.

Lemma whole_press_event_witness :
  let b := run 1 [(1000, down); (3000, up)]
             (one_button ButtonTimingConfig_default) in
  fst (getPressType 1 0
         (update 1 5300 up
            (run 1 [(5100, down); (5200, down)] (update 1 5000 down b))))
  = ButtonPressType.Short.
Proof.
  intros b.
  rewrite (whole_press_event 1 b 0 5000 5300 [(5100, down); (5200, down)]
             down up); try (vm_compute; reflexivity).
  - repeat split; reflexivity.
  - repeat constructor.
  - vm_compute. discriminate.
Defined.

(** The clock may wrap between press and release: durations are
    differences modulo 2^32, so a press accepted at [t_press] shortly
    before the roll-over of [millis()] and released at [t_release] after it
    is classified by its true length [t_release + 2^32 - t_press]. *)
Theorem press_across_rollover
    (N : nat) (b : t) (i : nat) (t_press t_release : Z)
    (read_press read_release : Z -> bool) :
  wf N b -> (i < N)%nat ->
  0 <= t_release < t_press -> t_press < 2 ^ 32 ->
  read_press (pins_ b !!! i) = true ->
  accepts (timing_ b) t_press true (slots_of b i) = true ->
  read_release (pins_ b !!! i) = false ->
  debounce_ms (timing_ b) <= t_release + 2 ^ 32 - t_press ->
  event_ (update N t_release read_release
            (update N t_press read_press b)) !!! i
  = classify (timing_ b) (t_release + 2 ^ 32 - t_press).
Proof.
  intros Hwf Hi Hlt Hmax Hdown Hacc Hup Hdeb.
  assert (Hwrap : u32 (t_release - t_press) = t_release + 2 ^ 32 - t_press).
  { unfold u32.
    replace (t_release - t_press)
      with (t_release + 2 ^ 32 - t_press + (-1) * 2 ^ 32) by lia.
    rewrite Z.mod_add by lia. apply Z.mod_small. lia. }
  rewrite <- Hwrap.
  apply (press_release_pair N b i t_press t_release [] read_press read_release);
    auto.
  rewrite Hwrap. exact Hdeb.
Qed.

Lemma press_across_rollover_witness :
  let b := one_button ButtonTimingConfig_default in
  event_ (update 1 400 up (update 1 (2 ^ 32 - 100) down b)) !!! 0%nat
  = ButtonPressType.Short.
Proof.
  intros b.
  rewrite (press_across_rollover 1 b 0 (2 ^ 32 - 100) 400 down up);
    try (vm_compute; reflexivity).
  - repeat split; reflexivity.
  - split; vm_compute; [discriminate|reflexivity].
  - vm_compute. discriminate.
Defined.

End ButtonHandlerSpec.

(* ===================================================================== *)
(** * Properties of the motor driver *)
(* ===================================================================== *)

Module HBridgeMotorSpec.
Import HBridgeMotor.

(** ** Checking a property on every duty value *)

Lemma range_check (P : Z -> bool) (lo len : Z) :
  forallb P (seqZ lo len) = true ->
  forall z, lo <= z < lo + len -> P z = true.
Proof.
  intros Hall z Hz. rewrite forallb_forall in Hall. apply Hall.
  apply list_elem_of_In, elem_of_seqZ. lia.
Qed.

Lemma clamp_range value low high :
  low <= high -> low <= MathFns.clamp value low high <= high.
Proof. unfold MathFns.clamp. intros H. repeat case_match; lia. Qed.

Lemma clamp_id value low high :
  low <= value <= high -> MathFns.clamp value low high = value.
Proof. unfold MathFns.clamp. intros H. repeat case_match; lia. Qed.

Lemma kPwmMaxInput_value : kPwmMaxInput_ = 1023.
Proof. reflexivity. Qed.

(** The literals are the binary32 values nearest to 0.001 and 0.999. *)
Lemma literals_rounded :
  Float.lit_0_001f = Float.div32 (Float.of_Z32 1) (Float.of_Z32 1000) /\
  Float.lit_0_999f = Float.div32 (Float.of_Z32 999) (Float.of_Z32 1000).
Proof. split; vm_compute; reflexivity. Qed.

(** The "pure coast" test of [startSoftBrake] holds for duties 0 and 1
    only, the "pure hard brake" test for 1022 and 1023 only. *)
Lemma level_low pwm :
  0 <= pwm <= kPwmMaxInput_ ->
  SFleb (level_of pwm) Float.lit_0_001f = (pwm <=? 1).
Proof.
  intros H. apply Bool.eqb_prop.
  apply (range_check
           (fun p => Bool.eqb (SFleb (level_of p) Float.lit_0_001f)
                              (p <=? 1)) 0 1024).
  - vm_compute; reflexivity.
  - rewrite kPwmMaxInput_value in H. lia.
Qed.

Lemma level_high pwm :
  0 <= pwm <= kPwmMaxInput_ ->
  SFleb Float.lit_0_999f (level_of pwm) = (1022 <=? pwm).
Proof.
  intros H. apply Bool.eqb_prop.
  apply (range_check
           (fun p => Bool.eqb (SFleb Float.lit_0_999f (level_of p))
                              (1022 <=? p)) 0 1024).
  - vm_compute; reflexivity.
  - rewrite kPwmMaxInput_value in H. lia.
Qed.

(** ** Unfolding the two mutually recursive calls *)

Lemma recompute_level undef m :
  soft_level_ (recomputeSoftDurations undef m) = level_of (soft_brake_pwm_ m).
Proof. unfold recomputeSoftDurations. repeat case_match; reflexivity. Qed.

(** [recomputeSoftDurations] writes the level and the two durations only. *)
Lemma recompute_frame undef m :
  let r := recomputeSoftDurations undef m in
  beh_ r = beh_ m /\ soft_brake_pwm_ r = soft_brake_pwm_ m /\
  soft_active_ r = soft_active_ m /\ soft_phase_ r = soft_phase_ m /\
  soft_hz_ r = soft_hz_ m /\ use_en_ r = use_en_ m /\
  en_state_ r = en_state_ m /\ en_pin_ r = en_pin_ m /\ hw r = hw m.
Proof.
  unfold recomputeSoftDurations. repeat case_match; cbn; tauto.
Qed.

Lemma stopSoftBrake_frame m :
  let r := stopSoftBrake m in
  beh_ r = beh_ m /\ soft_brake_pwm_ r = soft_brake_pwm_ m /\
  soft_active_ r = false /\ soft_hz_ r = soft_hz_ m /\
  use_en_ r = use_en_ m /\ en_state_ r = en_state_ m.
Proof.
  unfold stopSoftBrake. destruct (soft_active_ m) eqn:E; cbn;
    repeat split; congruence.
Qed.

Lemma setSoftBrakePWM_frame undef pwm m :
  let r := setSoftBrakePWM undef pwm m in
  beh_ r = beh_ m /\
  soft_brake_pwm_ r = MathFns.clamp pwm 0 kPwmMaxInput_ /\
  soft_active_ r = soft_active_ m /\ soft_phase_ r = soft_phase_ m /\
  soft_hz_ r = soft_hz_ m /\ use_en_ r = use_en_ m /\
  en_state_ r = en_state_ m /\ en_pin_ r = en_pin_ m /\ hw r = hw m.
Proof.
  unfold setSoftBrakePWM. cbn.
  destruct (soft_active_ m) eqn:E; [|cbn; repeat split; congruence].
  pose proof (recompute_frame undef
                (set_soft_brake_pwm (MathFns.clamp pwm 0 kPwmMaxInput_) m))
    as H.
  cbn in H. intuition congruence.
Qed.

Lemma setFreewheel_S undef fuel m :
  setFreewheel undef (S fuel) m =
  match freewheel_mode (beh_ m) with
  | HiZ =>
      Some (writeAB Float.zero Float.zero (setEnable false (stopSoftBrake m)))
  | HiZ_Awake =>
      Some (writeAB Float.zero Float.zero (setEnable true (stopSoftBrake m)))
  | DitherBrake =>
      startSoftBrake undef fuel
        (setSoftBrakePWM undef (dither_pwm (beh_ m)) (stopSoftBrake m))
  end.
Proof.
  destruct (stopSoftBrake_frame m) as (Hb & _).
  cbn [setFreewheel]. rewrite !Hb. reflexivity.
Qed.

Lemma startSoftBrake_S undef fuel m :
  0 <= soft_brake_pwm_ m <= kPwmMaxInput_ ->
  startSoftBrake undef (S fuel) m =
  if soft_brake_pwm_ m <=? 1 then
    setFreewheel undef fuel (stopSoftBrake (recomputeSoftDurations undef m))
  else if 1022 <=? soft_brake_pwm_ m then
    Some (writeAB Float.hundred Float.hundred
            (setEnable true
               (stopSoftBrake (recomputeSoftDurations undef m))))
  else Some (engage undef m).
Proof.
  intros Hpwm. cbn [startSoftBrake].
  rewrite recompute_level, level_low, level_high by assumption.
  destruct (_ <=? 1); [reflexivity|].
  destruct (1022 <=? _); [reflexivity|].
  unfold engage. cbv zeta. destruct (negb _); reflexivity.
Qed.

(** ** Termination of [setFreewheel] and [startSoftBrake] (C10) *)

Lemma loops_never_return undef : forall fuel m,
  loops m ->
  setFreewheel undef fuel m = None /\
  (0 <= soft_brake_pwm_ m <= 1 -> startSoftBrake undef fuel m = None).
Proof.
  induction fuel as [|fuel IH]; intros m [Hmode Hdither]; [auto|].
  pose proof (clamp_range (dither_pwm (beh_ m)) 0 kPwmMaxInput_
                ltac:(rewrite kPwmMaxInput_value; lia)) as Hclamp.
  split.
  - rewrite setFreewheel_S, Hmode.
    destruct (stopSoftBrake_frame m) as (Hb & _).
    destruct (setSoftBrakePWM_frame undef (dither_pwm (beh_ m))
                (stopSoftBrake m)) as (Hb' & Hp' & _).
    apply IH.
    + unfold loops. rewrite Hb', Hb. auto.
    + rewrite Hp'. lia.
  - intros Hpwm.
    rewrite startSoftBrake_S by (rewrite kPwmMaxInput_value; lia).
    replace (soft_brake_pwm_ m <=? 1) with true by (symmetry; lia).
    destruct (recompute_frame undef m) as (Hb & _).
    destruct (stopSoftBrake_frame (recomputeSoftDurations undef m))
      as (Hb' & _).
    apply IH. unfold loops. rewrite Hb', Hb. auto.
Qed.

(** C10 fails on the code.  With the behaviour profile
    [(DitherBrake, 300 Hz, dither_pwm = 0)], [setFreewheel] stores duty 0
    and calls [startSoftBrake], whose "pure coast" test sends it back to
    [setFreewheel], and so on: no bound on the call depth lets the call
    return. *)
Theorem setFreewheel_DitherBrake_zero_never_returns
    (undefined_int64 : spec_float -> Z) (fuel : nat) :
  setFreewheel undefined_int64 fuel
    (setup2 DRIVE_MCPWM
       {| freewheel_mode := DitherBrake; soft_brake_hz := 300;
          dither_pwm := 0 |}
       (make Hardware_reset))
  = None.
Proof. apply loops_never_return. split; [reflexivity|]. vm_compute. discriminate. Qed.

Lemma Some_if {A} (b : bool) (x y : A) :
  (if b then Some x else Some y) = Some (if b then x else y).
Proof. destruct b; reflexivity. Qed.

(** For every other configuration both calls return, within a call depth
    of three. *)
Lemma setFreewheel_returns undef m :
  ~ loops m ->
  exists m', forall fuel, (2 <= fuel)%nat ->
    setFreewheel undef fuel m = Some m'.
Proof.
  intros Hloops.
  pose proof (clamp_range (dither_pwm (beh_ m)) 0 kPwmMaxInput_
                ltac:(rewrite kPwmMaxInput_value; lia)) as Hclamp.
  destruct (freewheel_mode (beh_ m)) eqn:Hmode.
  - eexists. intros [|fuel] Hf; [lia|].
    rewrite setFreewheel_S, Hmode. reflexivity.
  - eexists. intros [|fuel] Hf; [lia|].
    rewrite setFreewheel_S, Hmode. reflexivity.
  - assert (Hd : 2 <= MathFns.clamp (dither_pwm (beh_ m)) 0 kPwmMaxInput_).
    { destruct (decide (MathFns.clamp (dither_pwm (beh_ m)) 0 kPwmMaxInput_
                        <= 1)); [|lia].
      exfalso. apply Hloops. split; assumption. }
    destruct (setSoftBrakePWM_frame undef (dither_pwm (beh_ m))
                (stopSoftBrake m)) as (_ & Hp' & _).
    eexists. intros [|[|fuel]] Hf; [lia|lia|].
    rewrite setFreewheel_S, Hmode.
    rewrite startSoftBrake_S by (rewrite Hp'; exact Hclamp).
    rewrite Hp'.
    replace (_ <=? 1) with false by (symmetry; lia).
    rewrite Some_if. reflexivity.
Qed.

Lemma startSoftBrake_returns undef m :
  0 <= soft_brake_pwm_ m <= kPwmMaxInput_ ->
  ~ (loops m /\ soft_brake_pwm_ m <= 1) ->
  exists m', forall fuel, (3 <= fuel)%nat ->
    startSoftBrake undef fuel m = Some m'.
Proof.
  intros Hpwm Hloops.
  destruct (decide (soft_brake_pwm_ m <= 1)) as [Hlow|Hhigh].
  - destruct (recompute_frame undef m) as (Hb & _).
    destruct (stopSoftBrake_frame (recomputeSoftDurations undef m))
      as (Hb' & _).
    destruct (setFreewheel_returns undef
                (stopSoftBrake (recomputeSoftDurations undef m)))
      as [m' Hm'].
    { unfold loops in *. rewrite Hb', Hb. tauto. }
    exists m'. intros [|fuel] Hf; [lia|].
    rewrite startSoftBrake_S by assumption.
    replace (_ <=? 1) with true by (symmetry; lia).
    apply Hm'. lia.
  - eexists. intros [|fuel] Hf; [lia|].
    rewrite startSoftBrake_S by assumption.
    replace (_ <=? 1) with false by (symmetry; lia).
    rewrite Some_if. reflexivity.
Qed.

(** ** What the non-recursive steps do *)

(** Stop the cycle, set the enable line, write both duties: the shape of
    [setHardBrake], of the drive branch of [setSpeed], of the two HiZ
    branches of [setFreewheel] and of the "pure hard brake" branch of
    [startSoftBrake]. *)
Lemma stop_enable_write on a b m :
  wf m ->
  let r := writeAB a b (setEnable on (stopSoftBrake m)) in
  wf r /\ beh_ r = beh_ m /\ use_en_ r = use_en_ m /\
  soft_active_ r = false /\ timer (hw r) = None /\
  duty_a (hw r) = a /\ duty_b (hw r) = b /\ enable_is on r /\
  calls (hw r) =
    calls (hw m) ++ stop_calls m ++ enable_calls on m
      ++ [mcpwm_set_duty MCPWM_OPR_A a; mcpwm_set_duty MCPWM_OPR_B b].
Proof.
  destruct m as [? ? ? use en pwm beh tmr act ph lvl hz ub uc
                 [da db enl tm cl]].
  unfold wf, enable_is, stop_calls, enable_calls, writeAB, setEnable,
    stopSoftBrake. cbn.
  intros (Hpwm & Hen & Htm).
  destruct act, use, en, on, tm as [us|]; cbn in *;
    repeat split; intros; subst; cbn;
    rewrite <- ?app_assoc; try (reflexivity || lia || tauto || congruence).
Qed.

(** [wf] reads four members only. *)
Lemma wf_frame m r :
  soft_brake_pwm_ r = soft_brake_pwm_ m -> soft_active_ r = soft_active_ m ->
  en_state_ r = en_state_ m -> hw r = hw m ->
  wf m -> wf r.
Proof. unfold wf. intros -> -> -> ->. tauto. Qed.

Lemma split_period_frame undef m :
  let r := split_period undef m in
  beh_ r = beh_ m /\ soft_brake_pwm_ r = soft_brake_pwm_ m /\
  soft_active_ r = soft_active_ m /\ soft_phase_ r = soft_phase_ m /\
  soft_hz_ r = soft_hz_ m /\ use_en_ r = use_en_ m /\
  en_state_ r = en_state_ m /\ en_pin_ r = en_pin_ m /\ hw r = hw m /\
  soft_level_ r = soft_level_ m /\
  soft_us_brake_ r + soft_us_coast_ r = Float.to_int64 undef (period_us m).
Proof.
  unfold split_period, period_us. cbn. repeat split; try reflexivity. lia.
Qed.

(** Starting the cycle: the coast pattern is written and the one-shot is
    armed with the coast duration, raised to the minimum. *)
Lemma start_cycle m :
  wf m -> soft_active_ m = false ->
  let m3 := set_soft_active true (set_soft_phase Coast m) in
  let r := scheduleNextPhase (applyPhase (soft_phase_ m3) m3) in
  wf r /\ beh_ r = beh_ m /\ use_en_ r = use_en_ m /\ dithering r /\
  soft_level_ r = soft_level_ m /\
  soft_us_brake_ r = soft_us_brake_ m /\
  soft_us_coast_ r = soft_us_coast_ m /\
  duty_a (hw r) = Float.zero /\ duty_b (hw r) = Float.zero /\
  calls (hw r) =
    calls (hw m) ++
    [mcpwm_set_duty MCPWM_OPR_A Float.zero;
     mcpwm_set_duty MCPWM_OPR_B Float.zero;
     esp_timer_start_once (Z.max kMinPhaseUs (soft_us_coast_ m))].
Proof.
  destruct m as [? ? ? use en pwm beh tmr act ph lvl hz ub uc
                 [da db enl tm cl]].
  unfold wf, dithering, applyPhase, scheduleNextPhase, writeAB.
  cbn. intros (Hpwm & Hen & Htm) ->.
  unfold kMinPhaseUs.
  destruct (uc <? 1500) eqn:Huc; cbn;
    (repeat split; try (reflexivity || lia || assumption));
    try (eexists; split; [reflexivity|lia]);
    rewrite <- !app_assoc; cbn; repeat f_equal; lia.
Qed.

(** Engaging the dither: the exact split of the period is stored, and a
    cycle that was not running starts in the coast phase with its first
    one-shot armed. *)
Lemma engage_outcome undef m :
  wf m ->
  let r := engage undef m in
  wf r /\ beh_ r = beh_ m /\ use_en_ r = use_en_ m /\ dithering r /\
  soft_level_ r = level_of (soft_brake_pwm_ m) /\
  soft_us_brake_ r + soft_us_coast_ r
    = Float.to_int64 undef (period_us m) /\
  calls (hw r) =
    calls (hw m) ++
    (if soft_active_ m then []
     else [mcpwm_set_duty MCPWM_OPR_A Float.zero;
           mcpwm_set_duty MCPWM_OPR_B Float.zero;
           esp_timer_start_once (Z.max kMinPhaseUs (soft_us_coast_ r))]).
Proof.
  intros Hwf. unfold engage. cbv zeta.
  pose proof (recompute_level undef m) as Hlvl.
  destruct (recompute_frame undef m)
    as (Hb1 & Hp1 & Ha1 & _ & Hz1 & Hu1 & He1 & _ & Hh1).
  destruct (split_period_frame undef (recomputeSoftDurations undef m))
    as (Hb2 & Hp2 & Ha2 & _ & _ & Hu2 & He2 & _ & Hh2 & Hl2 & Hsum).
  set (m2 := split_period undef (recomputeSoftDurations undef m)) in *.
  assert (Hwf2 : wf m2).
  { apply (wf_frame m); congruence. }
  assert (HT : period_us (recomputeSoftDurations undef m) = period_us m).
  { unfold period_us. rewrite Hz1. reflexivity. }
  assert (Hsum' : soft_us_brake_ m2 + soft_us_coast_ m2
                  = Float.to_int64 undef (period_us m)) by congruence.
  assert (Hlvl' : soft_level_ m2 = level_of (soft_brake_pwm_ m))
    by congruence.
  destruct (soft_active_ m) eqn:Hact.
  - replace (soft_active_ m2) with true by congruence. cbn [negb].
    rewrite app_nil_r.
    split; [exact Hwf2|]. split; [congruence|]. split; [congruence|].
    split; [|split; [exact Hlvl'|split; [exact Hsum'|congruence]]].
    destruct Hwf2 as (_ & _ & Htm). unfold dithering.
    split; [congruence|].
    destruct (timer (hw m2)) as [us|]; [|congruence].
    exists us. tauto.
  - replace (soft_active_ m2) with false by congruence. cbn [negb].
    destruct (start_cycle m2 Hwf2 ltac:(congruence))
      as (Hw & Hb & Hu & Hd & Hl & Hbr & Hco & _ & _ & Hc).
    cbv zeta in Hw, Hb, Hu, Hd, Hl, Hbr, Hco, Hc.
    split; [exact Hw|]. split; [congruence|]. split; [congruence|].
    split; [exact Hd|]. split; [congruence|]. split; [congruence|].
    rewrite Hc, Hco, Hh2, Hh1. reflexivity.
Qed.

Lemma recompute_wf undef m : wf m -> wf (recomputeSoftDurations undef m).
Proof.
  destruct (recompute_frame undef m) as (_ & Hp & Ha & _ & _ & _ & He & _ & Hh).
  apply wf_frame; assumption.
Qed.

Lemma stopSoftBrake_outcome m :
  wf m ->
  let r := stopSoftBrake m in
  wf r /\ soft_active_ r = false /\ timer (hw r) = None /\
  en_pin_ r = en_pin_ m /\
  duty_a (hw r) = duty_a (hw m) /\ duty_b (hw r) = duty_b (hw m) /\
  calls (hw r) = calls (hw m) ++ stop_calls m.
Proof.
  destruct m as [? ? ? use en pwm beh tmr act ph lvl hz ub uc
                 [da db enl tm cl]].
  unfold wf, stop_calls, stopSoftBrake. cbn.
  intros (Hpwm & Hen & Htm).
  destruct act, tm as [us|]; cbn in *;
    repeat split; try (reflexivity || lia || tauto || congruence).
  rewrite app_nil_r. reflexivity.
Qed.

Lemma stopSoftBrake_idle m : soft_active_ m = false -> stopSoftBrake m = m.
Proof. unfold stopSoftBrake. intros ->. reflexivity. Qed.

Lemma stopSoftBrake_idempotent m :
  stopSoftBrake (stopSoftBrake m) = stopSoftBrake m.
Proof.
  apply stopSoftBrake_idle. apply (stopSoftBrake_frame m).
Qed.

Lemma no_stop_enable_write on m a b :
  no_stop (enable_calls on m
             ++ [mcpwm_set_duty MCPWM_OPR_A a; mcpwm_set_duty MCPWM_OPR_B b]).
Proof.
  unfold no_stop, enable_calls.
  destruct (_ && _); repeat constructor; discriminate.
Qed.

(** What [setFreewheel] does when it returns: the timer stop comes first,
    then the pattern of the configured sub-mode. *)
Lemma setFreewheel_outcome undef m :
  wf m -> ~ loops m ->
  exists r rest,
    (forall fuel, (2 <= fuel)%nat -> setFreewheel undef fuel m = Some r) /\
    wf r /\ beh_ r = beh_ m /\ use_en_ r = use_en_ m /\
    calls (hw r) = calls (hw m) ++ stop_calls m ++ rest /\ no_stop rest /\
    match freewheel_mode (beh_ m) with
    | HiZ | HiZ_Awake => freewheeling r
    | DitherBrake =>
        if 1022 <=? MathFns.clamp (dither_pwm (beh_ m)) 0 kPwmMaxInput_
        then hard_braking r
        else dithering r /\
             exists us, last rest = Some (esp_timer_start_once us)
    end.
Proof.
  intros Hwf Hloops.
  pose proof (clamp_range (dither_pwm (beh_ m)) 0 kPwmMaxInput_
                ltac:(rewrite kPwmMaxInput_value; lia)) as Hclamp.
  destruct (stopSoftBrake_outcome m Hwf)
    as (Hwf1 & Ha1 & Ht1 & Hpin1 & _ & _ & Hc1).
  destruct (stopSoftBrake_frame m) as (Hb1 & Hp1 & _ & _ & Hu1 & He1).
  cbv zeta in *.
  destruct (freewheel_mode (beh_ m)) eqn:Hmode.
  - destruct (stop_enable_write false Float.zero Float.zero m Hwf)
      as (Hw & Hb & Hu & Ha & Ht & Hda & Hdb & Hen & Hc).
    eexists. exists (enable_calls false m
             ++ [mcpwm_set_duty MCPWM_OPR_A Float.zero;
                 mcpwm_set_duty MCPWM_OPR_B Float.zero]).
    split; [intros [|fuel] Hf; [lia|];
            rewrite setFreewheel_S, Hmode; reflexivity|].
    cbv zeta in *.
    split; [exact Hw|]. split; [exact Hb|]. split; [exact Hu|].
    split; [exact Hc|]. split; [apply no_stop_enable_write|].
    unfold freewheeling. rewrite Hb, Hmode. tauto.
  - destruct (stop_enable_write true Float.zero Float.zero m Hwf)
      as (Hw & Hb & Hu & Ha & Ht & Hda & Hdb & Hen & Hc).
    eexists. exists (enable_calls true m
             ++ [mcpwm_set_duty MCPWM_OPR_A Float.zero;
                 mcpwm_set_duty MCPWM_OPR_B Float.zero]).
    split; [intros [|fuel] Hf; [lia|];
            rewrite setFreewheel_S, Hmode; reflexivity|].
    cbv zeta in *.
    split; [exact Hw|]. split; [exact Hb|]. split; [exact Hu|].
    split; [exact Hc|]. split; [apply no_stop_enable_write|].
    unfold freewheeling. rewrite Hb, Hmode. tauto.
  - assert (Hd : 2 <= MathFns.clamp (dither_pwm (beh_ m)) 0 kPwmMaxInput_).
    { destruct (decide (MathFns.clamp (dither_pwm (beh_ m)) 0 kPwmMaxInput_
                        <= 1)); [|lia].
      exfalso. apply Hloops. split; assumption. }
    destruct (setSoftBrakePWM_frame undef (dither_pwm (beh_ m))
                (stopSoftBrake m))
      as (Hb2 & Hp2 & Ha2 & _ & _ & Hu2 & He2 & Hpin2 & Hh2).
    set (m2 := setSoftBrakePWM undef (dither_pwm (beh_ m)) (stopSoftBrake m))
      in *.
    assert (Hwf2 : wf m2).
    { destruct Hwf1 as (_ & Hen1 & Htm1). unfold wf.
      rewrite Hp2, Hh2, He2, Ha2. tauto. }
    assert (Hstep : forall fuel, (2 <= fuel)%nat ->
              setFreewheel undef fuel m =
              if 1022 <=? MathFns.clamp (dither_pwm (beh_ m)) 0 kPwmMaxInput_
              then Some (writeAB Float.hundred Float.hundred
                           (setEnable true
                              (stopSoftBrake
                                 (recomputeSoftDurations undef m2))))
              else Some (engage undef m2)).
    { intros [|[|fuel]] Hf; [lia|lia|].
      rewrite setFreewheel_S, Hmode. fold m2.
      rewrite startSoftBrake_S by (rewrite Hp2; exact Hclamp).
      rewrite Hp2.
      replace (_ <=? 1) with false by (symmetry; lia). reflexivity. }
    destruct (1022 <=? _) eqn:Hhigh.
    + pose proof (recompute_wf undef m2 Hwf2) as Hwf3.
      destruct (recompute_frame undef m2)
        as (Hb3 & _ & Ha3 & _ & _ & Hu3 & He3 & Hpin3 & Hh3).
      destruct (stop_enable_write true Float.hundred Float.hundred _ Hwf3)
        as (Hw & Hb & Hu & Ha & Ht & Hda & Hdb & Hen & Hc).
      cbv zeta in *.
      eexists.
      exists (enable_calls true (recomputeSoftDurations undef m2)
                ++ [mcpwm_set_duty MCPWM_OPR_A Float.hundred;
                    mcpwm_set_duty MCPWM_OPR_B Float.hundred]).
      split; [exact Hstep|].
      split; [exact Hw|]. split; [congruence|]. split; [congruence|].
      split.
      { rewrite Hc, Hh3, Hh2, Hc1. unfold stop_calls at 2.
        rewrite Ha3, Ha2, Ha1. rewrite <- !app_assoc. reflexivity. }
      split; [apply no_stop_enable_write|].
      unfold hard_braking. tauto.
    + destruct (engage_outcome undef m2 Hwf2)
        as (Hw & Hb & Hu & Hd' & _ & _ & Hc).
      cbv zeta in *. rewrite Ha2, Ha1 in Hc.
      eexists. eexists.
      split; [exact Hstep|].
      split; [exact Hw|]. split; [congruence|]. split; [congruence|].
      split; [rewrite Hc, Hh2, Hc1, <- app_assoc; reflexivity|].
      split; [repeat constructor; discriminate|].
      split; [exact Hd'|]. eexists. reflexivity.
Qed.

(** [wf] holds after [setup] of a fresh driver and is kept by
    [setSoftBrakePWM]; the outcome lemmas above and [timer_fire_dithering]
    below show that the other calls and the timer callback keep it. *)
Lemma setup2_wf cfg beh : wf (setup2 cfg beh (make Hardware_reset)).
Proof.
  destruct cfg as [lp rp ep], beh as [mode hz d].
  unfold wf, setup2, setEnable. cbn.
  destruct (0 <=? ep); cbn; repeat split; (reflexivity || discriminate).
Qed.

Lemma setSoftBrakePWM_wf undef pwm m :
  wf m -> wf (setSoftBrakePWM undef pwm m).
Proof.
  intros (_ & Hen & Htm).
  destruct (setSoftBrakePWM_frame undef pwm m)
    as (_ & Hp & Ha & _ & _ & _ & He & _ & Hh).
  unfold wf. rewrite Hp, Hh, He, Ha.
  split; [apply clamp_range; rewrite kPwmMaxInput_value; lia|tauto].
Qed.

(** ** Zero speed (C3) *)

(** What [startSoftBrake] does when it returns: the sub-mode's freewheel
    pattern, a hard brake, or the dither cycle running. *)
Lemma startSoftBrake_outcome undef m :
  wf m -> ~ (loops m /\ soft_brake_pwm_ m <= 1) ->
  exists r,
    (forall fuel, (3 <= fuel)%nat -> startSoftBrake undef fuel m = Some r) /\
    wf r /\ beh_ r = beh_ m /\
    (freewheeling r \/ hard_braking r \/ dithering r).
Proof.
  intros Hwf Hloops. pose proof Hwf as (Hpwm & _).
  pose proof (recompute_wf undef m Hwf) as Hwf1.
  destruct (recompute_frame undef m) as (Hb1 & Hp1 & _).
  destruct (decide (soft_brake_pwm_ m <= 1)) as [Hlow|Hnlow].
  - destruct (stopSoftBrake_outcome _ Hwf1) as (Hwf2 & _).
    destruct (stopSoftBrake_frame (recomputeSoftDurations undef m))
      as (Hb2 & _).
    destruct (setFreewheel_outcome undef _ Hwf2)
      as (r & rest & Hr & Hw & Hb & _ & _ & _ & Hout).
    { unfold loops in *. rewrite Hb2, Hb1. tauto. }
    exists r. split.
    { intros [|fuel] Hf; [lia|].
      rewrite startSoftBrake_S by assumption.
      replace (_ <=? 1) with true by (symmetry; lia).
      apply Hr. lia. }
    split; [exact Hw|]. split; [congruence|].
    destruct (freewheel_mode _); [tauto|tauto|].
    destruct (1022 <=? _); tauto.
  - destruct (decide (1022 <= soft_brake_pwm_ m)) as [Hhigh|Hmid].
    + destruct (stop_enable_write true Float.hundred Float.hundred _ Hwf1)
        as (Hw & Hb & Hu & Ha & Ht & Hda & Hdb & Hen & Hc).
      eexists. split.
      { intros [|fuel] Hf; [lia|].
        rewrite startSoftBrake_S by assumption.
        replace (_ <=? 1) with false by (symmetry; lia).
        replace (1022 <=? _) with true by (symmetry; lia). reflexivity. }
      cbv zeta in *. split; [exact Hw|]. split; [congruence|].
      right; left. unfold hard_braking. tauto.
    + destruct (engage_outcome undef m Hwf) as (Hw & Hb & _ & Hd & _).
      eexists. split.
      { intros [|fuel] Hf; [lia|].
        rewrite startSoftBrake_S by assumption.
        replace (_ <=? 1) with false by (symmetry; lia).
        replace (1022 <=? _) with false by (symmetry; lia). reflexivity. }
      cbv zeta in *. split; [exact Hw|]. split; [exact Hb|]. tauto.
Qed.

(** On every state except those of the unbounded recursion, zero speed
    goes through [startSoftBrake] and ends in one of its three outcomes. *)
Lemma setSpeed_zero_outcome undef speed dir m :
  wf m -> ~ (loops m /\ soft_brake_pwm_ m <= 1) ->
  MathFns.clamp speed 0 kPwmMaxInput_ = 0 ->
  exists r,
    (forall fuel, (3 <= fuel)%nat ->
       setSpeed undef fuel speed dir m = Some r /\
       setSpeed undef fuel speed dir m = startSoftBrake undef fuel m) /\
    wf r /\ (freewheeling r \/ hard_braking r \/ dithering r).
Proof.
  intros Hwf Hloops Hz.
  destruct (startSoftBrake_outcome undef m Hwf Hloops)
    as (r & Hr & Hw & _ & Hout).
  exists r. split; [|tauto].
  intros fuel Hf. unfold setSpeed. rewrite Hz. cbn. auto.
Qed.

Example setSpeed_zero_default_dithers :
  exists r,
    setSpeed no_int64 3 0 CW
      (setup2 DRIVE_MCPWM MotorBehaviorConfig_default (make Hardware_reset))
    = Some r /\ dithering r.
Proof.
  eexists. split; [vm_compute; reflexivity|].
  split; [vm_compute; reflexivity|].
  eexists. split; [vm_compute; reflexivity|]. vm_compute.
  discriminate.
Qed.

(** C3 fails on the code in one configuration.  With the profile
    [(DitherBrake, 300 Hz, dither_pwm = 0)] and the soft-brake duty set to
    0, [setSpeed(0, CW)] enters [startSoftBrake] and never returns: the
    "pure coast" test calls [setFreewheel], which stores duty 0 and calls
    [startSoftBrake] again. *)
Theorem setSpeed_zero_never_returns
    (undefined_int64 : spec_float -> Z) (fuel : nat) :
  setSpeed undefined_int64 fuel 0 CW
    (setSoftBrakePWM undefined_int64 0
       (setup2 DRIVE_MCPWM
          {| freewheel_mode := DitherBrake; soft_brake_hz := 300;
             dither_pwm := 0 |}
          (make Hardware_reset)))
  = None.
Proof.
  change (startSoftBrake undefined_int64 fuel
            (setSoftBrakePWM undefined_int64 0
               (setup2 DRIVE_MCPWM
                  {| freewheel_mode := DitherBrake; soft_brake_hz := 300;
                     dither_pwm := 0 |}
                  (make Hardware_reset))) = None).
  apply loops_never_return.
  - split; [reflexivity|]. vm_compute. discriminate.
  - vm_compute. split; discriminate.
Qed.

(** ** Mode changes stop the timer first (C5) *)

Lemma timer_fire_idle m : timer (hw m) = None -> timer_fire m = None.
Proof. unfold timer_fire. intros ->. reflexivity. Qed.

(** [setFreewheel_upto] and [startSoftBrake_upto] return what
    [setFreewheel] and [startSoftBrake] return. *)
Lemma upto_returned undef : forall fuel m,
  setFreewheel undef fuel m = returned (setFreewheel_upto undef fuel m) /\
  startSoftBrake undef fuel m = returned (startSoftBrake_upto undef fuel m).
Proof.
  induction fuel as [|fuel IH]; intros m; [split; reflexivity|].
  split.
  - cbn [setFreewheel setFreewheel_upto]. cbv zeta.
    destruct (freewheel_mode _); try reflexivity. apply IH.
  - cbn [startSoftBrake startSoftBrake_upto]. cbv zeta.
    destruct (SFleb (soft_level_ _) _); [apply IH|].
    destruct (SFleb _ (soft_level_ _)); [reflexivity|].
    destruct (negb _); reflexivity.
Qed.

(** In the configurations of the unbounded recursion, with the cycle off,
    the nested calls go on without a single hardware call. *)
Lemma loops_in_call undef : forall fuel s,
  soft_active_ s = false -> loops s ->
  (exists s', setFreewheel_upto undef fuel s = InCall s' /\ hw s' = hw s) /\
  (0 <= soft_brake_pwm_ s <= 1 ->
   exists s', startSoftBrake_upto undef fuel s = InCall s' /\ hw s' = hw s).
Proof.
  induction fuel as [|fuel IH]; intros s Hact [Hmode Hd].
  { split; [|intros _]; exists s; split; reflexivity. }
  pose proof (clamp_range (dither_pwm (beh_ s)) 0 kPwmMaxInput_
                ltac:(rewrite kPwmMaxInput_value; lia)) as Hclamp.
  split.
  - cbn [setFreewheel_upto]. cbv zeta.
    rewrite (stopSoftBrake_idle s Hact), Hmode.
    destruct (setSoftBrakePWM_frame undef (dither_pwm (beh_ s)) s)
      as (Hb & Hp & Ha & _ & _ & _ & _ & _ & Hh).
    destruct (IH (setSoftBrakePWM undef (dither_pwm (beh_ s)) s))
      as [_ HB].
    + congruence.
    + unfold loops. rewrite Hb. auto.
    + destruct HB as (s' & Hs' & Hhw); [rewrite Hp; lia|].
      exists s'. split; [exact Hs'|congruence].
  - intros Hpwm. cbn [startSoftBrake_upto]. cbv zeta.
    rewrite recompute_level, level_low by (rewrite kPwmMaxInput_value; lia).
    replace (_ <=? 1) with true by (symmetry; lia).
    destruct (recompute_frame undef s)
      as (Hb & _ & Ha & _ & _ & _ & _ & _ & Hh).
    rewrite stopSoftBrake_idle by congruence.
    destruct (IH (recomputeSoftDurations undef s))
      as [(s' & Hs' & Hhw) _].
    + congruence.
    + unfold loops. rewrite Hb. auto.
    + exists s'. split; [exact Hs'|congruence].
Qed.

(** There [setFreewheel] stops the timer and issues no other call, however
    deep the nested calls go. *)
Lemma setFreewheel_in_call undef fuel m :
  loops m ->
  exists s, setFreewheel_upto undef (S fuel) m = InCall s /\
            hw s = hw (stopSoftBrake m).
Proof.
  intros [Hmode Hd].
  pose proof (clamp_range (dither_pwm (beh_ m)) 0 kPwmMaxInput_
                ltac:(rewrite kPwmMaxInput_value; lia)) as Hclamp.
  destruct (stopSoftBrake_frame m) as (Hb1 & _ & Ha1 & _).
  destruct (setSoftBrakePWM_frame undef (dither_pwm (beh_ m))
              (stopSoftBrake m))
    as (Hb & Hp & Ha & _ & _ & _ & _ & _ & Hh).
  cbn [setFreewheel_upto]. cbv zeta. rewrite Hb1, Hmode.
  destruct (loops_in_call undef fuel
              (setSoftBrakePWM undef (dither_pwm (beh_ m))
                 (stopSoftBrake m)))
    as [_ HB].
  - congruence.
  - unfold loops. rewrite Hb, Hb1. auto.
  - destruct HB as (s' & Hs' & Hhw); [rewrite Hp; lia|].
    exists s'. split; [exact Hs'|congruence].
Qed.

(** A cycle engaged from rest starts in the coast phase, and the last
    hardware call arms the one-shot with that phase's delay. *)
Lemma engage_fresh undef m :
  soft_active_ m = false ->
  soft_active_ (engage undef m) = true /\
  soft_phase_ (engage undef m) = Coast /\
  timer (hw (engage undef m)) = Some (armed_us (engage undef m)) /\
  last (calls (hw (engage undef m)))
    = Some (esp_timer_start_once (armed_us (engage undef m))).
Proof.
  intros Hact. unfold engage. cbv zeta.
  destruct (recompute_frame undef m) as (_ & _ & Ha1 & _).
  destruct (split_period_frame undef (recomputeSoftDurations undef m))
    as (_ & _ & Ha2 & _).
  set (m2 := split_period undef (recomputeSoftDurations undef m)) in *.
  assert (Ha : soft_active_ m2 = false) by congruence.
  rewrite Ha. cbn [negb]. clearbody m2. clear - m2.
  destruct m2 as [? ? ? use en pwm beh tmr act ph lvl hz ub uc
                  [da db enl tm cl]].
  unfold scheduleNextPhase, applyPhase, writeAB, armed_us, kMinPhaseUs.
  cbn. destruct (uc <? 1500) eqn:Huc; cbn;
    rewrite ?last_snoc; repeat split; repeat f_equal; lia.
Qed.

(** [setFreewheel] in the DitherBrake sub-mode with a dither duty outside
    the two degenerate ranges starts the cycle anew. *)
Lemma setFreewheel_rearms undef m r :
  freewheel_mode (beh_ m) = DitherBrake ->
  2 <= MathFns.clamp (dither_pwm (beh_ m)) 0 kPwmMaxInput_ <= 1021 ->
  setFreewheel undef 2 m = Some r ->
  soft_active_ r = true /\ soft_phase_ r = Coast /\
  timer (hw r) = Some (armed_us r) /\
  last (calls (hw r)) = Some (esp_timer_start_once (armed_us r)).
Proof.
  intros Hmode Hd.
  destruct (stopSoftBrake_frame m) as (_ & _ & Ha1 & _).
  destruct (setSoftBrakePWM_frame undef (dither_pwm (beh_ m))
              (stopSoftBrake m)) as (_ & Hp & Ha & _).
  pose proof kPwmMaxInput_value as Hmax.
  rewrite setFreewheel_S, Hmode.
  rewrite startSoftBrake_S by (rewrite Hp; lia).
  rewrite Hp.
  replace (_ <=? 1) with false by (symmetry; lia).
  replace (1022 <=? _) with false by (symmetry; lia).
  intros [= <-]. apply engage_fresh. congruence.
Qed.

(** Every mode change begins with [stopSoftBrake]: stopping beforehand
    makes no difference. *)
Lemma mode_change_after_stop undef fuel c m :
  valid_change c ->
  mode_change undef fuel c (stopSoftBrake m) = mode_change undef fuel c m.
Proof.
  intros Hvalid.
  destruct c as [speed dir| |]; cbn [mode_change valid_change] in *.
  - unfold setSpeed. rewrite stopSoftBrake_idempotent.
    replace (_ =? 0) with false by (symmetry; lia). reflexivity.
  - destruct fuel as [|fuel]; [reflexivity|].
    destruct (stopSoftBrake_frame m) as (Hb1 & _).
    rewrite !setFreewheel_S, stopSoftBrake_idempotent, Hb1. reflexivity.
  - unfold setHardBrake. rewrite stopSoftBrake_idempotent. reflexivity.
Qed.

(** C5.  [setSpeed] with a nonzero clamped speed, [setFreewheel] and
    [setHardBrake] each stop the soft-brake timer before they write their
    output pattern, so after [stopSoftBrake()] and a mode transition no
    one-shot armed before the cancellation is left to fire.
    - [stopSoftBrake] leaves the one-shot idle, and a mode change after it
      is the mode change alone.
    - When the call returns, the hardware calls it issued are the timer
      stop (on a running cycle) followed by calls none of which is a stop.
      After a transition that does not itself soft-brake ([setSpeed],
      [setHardBrake], [setFreewheel] in the HiZ and HiZ_Awake sub-modes or
      with a dither duty in the hard-brake range) the cycle is off and the
      one-shot idle: no phase flip follows.  [setFreewheel] in the
      DitherBrake sub-mode is itself a soft brake: it starts a new cycle
      in the coast phase, and the one-shot then armed is the one its own
      last call armed, after the stop.
    - [setFreewheel] in the DitherBrake sub-mode with a dither duty of 0
      or 1 does not return; to any depth of the nested calls the timer
      stop is the only hardware call issued and the one-shot stays
      idle. *)
Theorem mode_change_stops_timer_first
    (undefined_int64 : spec_float -> Z) (c : ModeChange) (m : t) :
  wf m -> valid_change c ->
  timer (hw (stopSoftBrake m)) = None /\
  (forall fuel,
     mode_change undefined_int64 fuel c (stopSoftBrake m)
     = mode_change undefined_int64 fuel c m) /\
  ((c = ToFreewheel -> ~ loops m) ->
   exists r rest,
     (forall fuel, (2 <= fuel)%nat ->
        mode_change undefined_int64 fuel c m = Some r) /\
     wf r /\
     calls (hw r) = calls (hw m) ++ stop_calls m ++ rest /\ no_stop rest /\
     if rearms c m then
       dithering r /\ soft_phase_ r = Coast /\
       timer (hw r) = Some (armed_us r) /\
       last rest = Some (esp_timer_start_once (armed_us r))
     else
       soft_active_ r = false /\ timer (hw r) = None /\
       timer_fire r = None) /\
  (c = ToFreewheel -> loops m ->
   forall fuel,
     setFreewheel undefined_int64 fuel m = None /\
     exists s,
       setFreewheel_upto undefined_int64 (S fuel) m = InCall s /\
       calls (hw s) = calls (hw m) ++ stop_calls m /\
       timer_fire s = None).
Proof.
  intros Hwf Hvalid.
  destruct (stopSoftBrake_outcome m Hwf)
    as (_ & _ & Ht1 & _ & _ & _ & Hc1).
  split; [exact Ht1|].
  split; [intros fuel; apply mode_change_after_stop, Hvalid|].
  split.
  - intros Hloops.
    destruct c as [speed dir| |]; cbn [mode_change rearms valid_change] in *.
    + unfold setSpeed.
      replace (_ =? 0) with false by (symmetry; lia).
      set (duty := Float.mul32 _ _).
      destruct dir.
      * destruct (stop_enable_write true duty Float.zero m Hwf)
          as (Hw & _ & _ & Ha & Ht & _ & _ & _ & Hc).
        eexists. eexists. split; [intros fuel _; reflexivity|].
        split; [exact Hw|]. split; [exact Hc|].
        split; [apply no_stop_enable_write|].
        auto using timer_fire_idle.
      * destruct (stop_enable_write true Float.zero duty m Hwf)
          as (Hw & _ & _ & Ha & Ht & _ & _ & _ & Hc).
        eexists. eexists. split; [intros fuel _; reflexivity|].
        split; [exact Hw|]. split; [exact Hc|].
        split; [apply no_stop_enable_write|].
        auto using timer_fire_idle.
    + destruct (setFreewheel_outcome undefined_int64 m Hwf
                  (Hloops eq_refl))
        as (r & rest & Hr & Hw & Hb & _ & Hc & Hns & Hout).
      exists r, rest.
      split; [exact Hr|]. split; [exact Hw|]. split; [exact Hc|].
      split; [exact Hns|].
      destruct (freewheel_mode (beh_ m)) eqn:Hmode.
      * rewrite bool_decide_eq_false_2 by discriminate. cbn.
        destruct Hout as (Ha & Ht & _). auto using timer_fire_idle.
      * rewrite bool_decide_eq_false_2 by discriminate. cbn.
        destruct Hout as (Ha & Ht & _). auto using timer_fire_idle.
      * rewrite bool_decide_eq_true_2 by reflexivity. cbn.
        destruct (1022 <=? _) eqn:Hhigh.
        { replace (_ <? 1022) with false by (symmetry; lia).
          destruct Hout as (Ha & Ht & _). auto using timer_fire_idle. }
        replace (_ <? 1022) with true by (symmetry; lia).
        destruct Hout as (Hd & us & Hlast).
        assert (Hlow : 2 <= MathFns.clamp (dither_pwm (beh_ m)) 0
                              kPwmMaxInput_).
        { destruct (decide (MathFns.clamp (dither_pwm (beh_ m)) 0
                              kPwmMaxInput_ <= 1)); [|lia].
          exfalso. apply (Hloops eq_refl). split; assumption. }
        destruct (setFreewheel_rearms undefined_int64 m r Hmode
                    ltac:(lia) (Hr 2%nat ltac:(lia)))
          as (_ & Hph & Htm & Hl).
        rewrite Hc, app_assoc, last_app, Hlast in Hl.
        injection Hl as Hus. subst us. auto.
    + unfold setHardBrake.
      destruct (stop_enable_write true Float.hundred Float.hundred m Hwf)
        as (Hw & _ & _ & Ha & Ht & _ & _ & _ & Hc).
      eexists. eexists. split; [intros fuel _; reflexivity|].
      split; [exact Hw|]. split; [exact Hc|].
      split; [apply no_stop_enable_write|].
      auto using timer_fire_idle.
  - intros _ Hloops fuel.
    split; [apply loops_never_return, Hloops|].
    destruct (setFreewheel_in_call undefined_int64 fuel m Hloops)
      as (s & Hs & Hhw).
    exists s. split; [exact Hs|]. rewrite Hhw.
    split; [exact Hc1|]. apply timer_fire_idle. rewrite Hhw. exact Ht1.
Qed.

Example dithering_example_reached beh :
  setSpeed no_int64 1 0 CW (configured beh) = Some (dithering_example beh).
Proof.
  assert (Hp : soft_brake_pwm_ (configured beh) = 50)
    by (destruct beh; reflexivity).
  change (setSpeed no_int64 1 0 CW (configured beh))
    with (startSoftBrake no_int64 1 (configured beh)).
  rewrite startSoftBrake_S by (rewrite Hp, kPwmMaxInput_value; lia).
  rewrite Hp. change (50 <=? 1) with false. change (1022 <=? 50) with false.
  cbv iota. unfold dithering_example. reflexivity.
Qed.

Lemma dithering_example_wf beh : wf (dithering_example beh).
Proof.
  apply (engage_outcome no_int64 (configured beh)).
  destruct beh as [mode hz d].
  vm_compute. repeat split; (reflexivity || discriminate).
Qed.

Lemma mode_change_stops_timer_first_witness :
  exists r rest,
    mode_change no_int64 2 ToFreewheel
      (dithering_example MotorBehaviorConfig_default) = Some r /\
    calls (hw r) =
      calls (hw (dithering_example MotorBehaviorConfig_default))
        ++ [esp_timer_stop] ++ rest /\
    timer_fire r = None.
Proof.
  destruct (mode_change_stops_timer_first no_int64 ToFreewheel
              (dithering_example MotorBehaviorConfig_default))
    as (_ & _ & Hret & _).
  - vm_compute. repeat split; (reflexivity || discriminate).
  - exact I.
  - destruct Hret as (r & rest & Hr & _ & Hc & _ & Hout).
    + intros _ [Hmode _]. vm_compute in Hmode. discriminate Hmode.
    + exists r, rest. split; [apply Hr; lia|]. split; [exact Hc|].
      change (rearms ToFreewheel
                (dithering_example MotorBehaviorConfig_default))
        with false in Hout.
      apply Hout.
Defined.

(** [setFreewheel] in the DitherBrake sub-mode on a running cycle.  The
    cycle runs at duty 50 with its one-shot armed for 3171 us;
    [stopSoftBrake] cancels it; [setFreewheel] stores the dither duty 30
    and starts a new cycle, arming the one-shot for 3236 us.  That one-shot
    is the one that fires, and the callback flips the outputs from the
    coast pattern to the brake pattern. *)
Example freewheel_dither_arms_anew :
  let beh :=
    {| freewheel_mode := DitherBrake; soft_brake_hz := 300;
       dither_pwm := 30 |} in
  timer (hw (dithering_example beh)) = Some 3171 /\
  timer (hw (stopSoftBrake (dithering_example beh))) = None /\
  exists r r',
    setFreewheel no_int64 3 (stopSoftBrake (dithering_example beh)) = Some r /\
    timer (hw r) = Some 3236 /\
    timer_fire r = Some r' /\
    (duty_a (hw r), duty_b (hw r)) = (Float.zero, Float.zero) /\
    (duty_a (hw r'), duty_b (hw r')) = (Float.hundred, Float.hundred).
Proof.
  cbv zeta.
  split; [vm_compute; reflexivity|].
  split; [vm_compute; reflexivity|].
  eexists. eexists.
  split; [vm_compute; reflexivity|].
  split; [vm_compute; reflexivity|].
  split; [vm_compute; reflexivity|].
  split; vm_compute; reflexivity.
Qed.

(** ** Changing the duty while dithering (C4) *)

Lemma level_of_zero : level_of 0 = Float.zero.
Proof. vm_compute. reflexivity. Qed.

(** The callback on a running cycle flips the phase and re-arms. *)
Lemma timer_fire_dithering m :
  wf m -> soft_active_ m = true ->
  exists r us,
    timer_fire m = Some r /\ wf r /\ dithering r /\
    soft_phase_ r
      = match soft_phase_ m with Coast => Brake | Brake => Coast end /\
    timer (hw r) = Some us /\
    us = Z.max kMinPhaseUs
           match soft_phase_ r with
           | Brake => soft_us_brake_ m
           | Coast => soft_us_coast_ m
           end.
Proof.
  destruct m as [? ? ? use en pwm beh tmr act ph lvl hz ub uc
                 [da db enl tm cl]].
  unfold wf, dithering, timer_fire, softBrakeISR, applyPhase,
    scheduleNextPhase, writeAB, setEnable.
  cbn. intros (Hpwm & Hen & Htm) ->.
  destruct tm as [us0|]; [|discriminate].
  unfold kMinPhaseUs in *.
  destruct ph, use, en; cbn; repeat case_match; cbn;
    eexists; eexists; (split; [reflexivity|]); cbn;
    repeat split; try (reflexivity || lia || congruence);
    try (eexists; split; [reflexivity|lia]).
Qed.

(** C4, as the code has it.  [setSoftBrakePWM(0)] on a running cycle
    stores duty 0 and recomputes the level (0.0) and the durations; it
    issues no hardware call, so the one-shot stays armed and the outputs
    stay as they are, the cycle stays active, and the next expiry flips
    the phase and re-arms as before.  [setFreewheel] is reached only when
    the soft brake is next engaged: [startSoftBrake] then takes its "pure
    coast" branch. *)
Theorem setSoftBrakePWM_zero_while_dithering
    (undefined_int64 : spec_float -> Z) (m : t) :
  wf m -> soft_active_ m = true ->
  let r := setSoftBrakePWM undefined_int64 0 m in
  soft_active_ r = true /\ hw r = hw m /\ dithering r /\
  soft_phase_ r = soft_phase_ m /\
  soft_brake_pwm_ r = 0 /\ soft_level_ r = Float.zero /\
  (exists r', timer_fire r = Some r' /\ dithering r') /\
  (forall fuel,
     startSoftBrake undefined_int64 (S fuel) r =
     setFreewheel undefined_int64 fuel
       (stopSoftBrake (recomputeSoftDurations undefined_int64 r))).
Proof.
  intros Hwf Hact r.
  destruct (setSoftBrakePWM_frame undefined_int64 0 m)
    as (Hb & Hp & Ha & Hph & _ & _ & He & _ & Hh).
  fold r in Hb, Hp, Ha, Hph, He, Hh.
  change (MathFns.clamp 0 0 kPwmMaxInput_) with 0 in Hp.
  assert (Hwfr : wf r).
  { destruct Hwf as (_ & Hen & Htm). unfold wf.
    rewrite Hp, Hh, He, Ha. rewrite kPwmMaxInput_value. split; [lia|tauto]. }
  assert (Hd : dithering r).
  { destruct Hwfr as (_ & _ & Htm). unfold dithering.
    split; [congruence|].
    destruct (timer (hw r)) as [us|]; [exists us; tauto|congruence]. }
  split; [congruence|]. split; [exact Hh|]. split; [exact Hd|].
  split; [exact Hph|]. split; [exact Hp|]. split.
  { unfold r, setSoftBrakePWM. cbn. rewrite Hact.
    rewrite recompute_level. exact level_of_zero. }
  split.
  { destruct (timer_fire_dithering r Hwfr ltac:(congruence))
      as (r' & us & Hf & _ & Hd' & _).
    exists r'. tauto. }
  intros fuel.
  rewrite startSoftBrake_S by (rewrite Hp, kPwmMaxInput_value; lia).
  rewrite Hp. reflexivity.
Qed.

Lemma setSoftBrakePWM_zero_while_dithering_witness :
  let m := dithering_example MotorBehaviorConfig_default in
  soft_active_ (setSoftBrakePWM no_int64 0 m) = true /\
  hw (setSoftBrakePWM no_int64 0 m) = hw m.
Proof.
  intros m.
  destruct (setSoftBrakePWM_zero_while_dithering no_int64 m)
    as (Ha & Hh & _).
  - vm_compute. repeat split; (reflexivity || discriminate).
  - vm_compute. reflexivity.
  - split; assumption.
Defined.

(** C4 as stated fails: on the running cycle of the example,
    [setSoftBrakePWM(0)] leaves the cycle active and the one-shot armed and
    issues no call, whereas [setFreewheel] would stop the timer and clear
    the active flag. *)
Lemma setSoftBrakePWM_zero_keeps_dithering :
  let m := dithering_example MotorBehaviorConfig_default in
  let r := setSoftBrakePWM no_int64 0 m in
  soft_active_ m = true /\
  soft_active_ r = true /\ timer (hw r) = Some 3171 /\
  calls (hw r) = calls (hw m) /\
  exists f, setFreewheel no_int64 2 m = Some f /\
            soft_active_ f = false /\ timer (hw f) = None /\
            calls (hw f) =
              calls (hw m) ++
              [esp_timer_stop; digitalWrite 39 false;
               mcpwm_set_duty MCPWM_OPR_A Float.zero;
               mcpwm_set_duty MCPWM_OPR_B Float.zero].
Proof.
  cbv zeta. split; [vm_compute; reflexivity|].
  split; [vm_compute; reflexivity|].
  split; [vm_compute; reflexivity|]. split; [vm_compute; reflexivity|].
  eexists. split; [vm_compute; reflexivity|].
  split; [vm_compute; reflexivity|]. split; vm_compute; reflexivity.
Qed.

(** ** The freewheel mode after setup (C9) *)

(** C9, as the code has it.  [setup(cfg)] takes the default profile and
    turns its HiZ into HiZ_Awake when [en_pin < 0]; [setup(cfg, beh)]
    stores the caller's profile as it is, HiZ included.  With no enable
    pin the stored HiZ drives the hardware exactly as HiZ_Awake would,
    since [setEnable] then does nothing. *)
Theorem setup_freewheel_mode
    (undefined_int64 : spec_float -> Z) (fuel : nat)
    (cfg : MotorMCPWMConfig) (beh : MotorBehaviorConfig) (m : t) :
  beh_ (setup2 cfg beh m) = beh /\
  use_en_ (setup2 cfg beh m) = (0 <=? en_pin cfg) /\
  freewheel_mode (beh_ (setup1 cfg m))
    = (if en_pin cfg <? 0 then HiZ_Awake else HiZ) /\
  (en_pin cfg < 0 -> freewheel_mode beh = HiZ ->
   hw <$> setFreewheel undefined_int64 (S fuel) (setup2 cfg beh m)
   = hw <$> setFreewheel undefined_int64 (S fuel)
              (setup2 cfg (with_freewheel_mode HiZ_Awake beh) m)).
Proof.
  assert (Hbeh : forall b, beh_ (setup2 cfg b m) = b).
  { intros b. unfold setup2, setEnable. cbn.
    repeat case_match; reflexivity. }
  assert (Huse : forall b, use_en_ (setup2 cfg b m) = (0 <=? en_pin cfg)).
  { intros b. unfold setup2, setEnable. cbn.
    repeat case_match; reflexivity. }
  split; [apply Hbeh|]. split; [apply Huse|]. split.
  - unfold setup1. rewrite Hbeh. cbn.
    destruct (en_pin cfg <? 0); reflexivity.
  - intros Hen Hmode.
    destruct beh as [mode hz d], cfg as [lp rp ep],
             m as [? ? ? use en pwm b0 tmr act ph lvl hz0 ub uc
                   [da db enl tm cl]].
    cbn in Hen, Hmode. subst mode.
    cbn [setFreewheel].
    unfold setup2, with_freewheel_mode, setEnable, stopSoftBrake, writeAB.
    cbn. replace (0 <=? ep) with false by (symmetry; lia). cbn.
    destruct tmr, act; reflexivity.
Qed.

Lemma setup_freewheel_mode_witness :
  let cfg := {| lpwm_pin := 37; rpwm_pin := 38; en_pin := -1 |} in
  hw <$> setFreewheel no_int64 1
           (setup2 cfg MotorBehaviorConfig_default (make Hardware_reset))
  = hw <$> setFreewheel no_int64 1
             (setup2 cfg
                (with_freewheel_mode HiZ_Awake MotorBehaviorConfig_default)
                (make Hardware_reset)).
Proof.
  intros cfg.
  apply (setup_freewheel_mode no_int64 0 cfg MotorBehaviorConfig_default
           (make Hardware_reset)).
  - reflexivity.
  - reflexivity.
Defined.

(** C9 as stated fails for a profile supplied by the caller: without an
    enable pin, [setup(cfg, beh)] with [beh.freewheel_mode = HiZ] leaves
    the mode at HiZ. *)
Lemma setup2_keeps_HiZ_without_enable_pin :
  let cfg := {| lpwm_pin := 37; rpwm_pin := 38; en_pin := -1 |} in
  let beh :=
    {| freewheel_mode := HiZ; soft_brake_hz := 300; dither_pwm := 30 |} in
  en_pin cfg < 0 /\
  freewheel_mode (beh_ (setup2 cfg beh (make Hardware_reset))) = HiZ /\
  freewheel_mode (beh_ (setup2 cfg beh (make Hardware_reset))) <> HiZ_Awake.
Proof. cbv zeta. split; [reflexivity|]. split; [reflexivity|discriminate]. Qed.

(** ** Driving (C6) *)

(** The IEEE order on positive finite values: by exponent, then by
    mantissa. *)
Lemma SFleb_positive m1 e1 m2 e2 :
  SFleb (S754_finite false m1 e1) (S754_finite false m2 e2) = true <->
  e1 < e2 \/ (e1 = e2 /\ (m1 <= m2)%positive).
Proof.
  unfold SFleb, SFcompare.
  change (Pos.compare_cont Eq m1 m2) with (m1 ?= m2)%positive.
  destruct (Z.compare_spec e1 e2) as [He|He|He].
  - destruct (Pos.compare_spec m1 m2) as [Hm|Hm|Hm];
      split; intros H; try discriminate; try lia.
  - split; intros H; [lia|reflexivity].
  - split; intros H; [discriminate|lia].
Qed.

Lemma SFleb_positive_trans a b c :
  positive_finite a = true -> positive_finite b = true ->
  positive_finite c = true ->
  SFleb a b = true -> SFleb b c = true -> SFleb a c = true.
Proof.
  destruct a as [| | |[] ma ea]; try discriminate.
  destruct b as [| | |[] mb eb]; try discriminate.
  destruct c as [| | |[] mc ec]; try discriminate.
  intros _ _ _. rewrite !SFleb_positive. lia.
Qed.

(** Every drive duty is positive, and each is at most the next. *)
Lemma drive_duty_positive c :
  1 <= c <= kPwmMaxInput_ -> positive_finite (drive_duty c) = true.
Proof.
  intros H. apply (range_check (fun c => positive_finite (drive_duty c)) 1 1023).
  - vm_compute; reflexivity.
  - rewrite kPwmMaxInput_value in H. lia.
Qed.

Lemma drive_duty_step c :
  1 <= c < kPwmMaxInput_ ->
  SFleb (drive_duty c) (drive_duty (c + 1)) = true.
Proof.
  intros H.
  apply (range_check
           (fun c => SFleb (drive_duty c) (drive_duty (c + 1))) 1 1022).
  - vm_compute; reflexivity.
  - rewrite kPwmMaxInput_value in H. lia.
Qed.

Lemma drive_duty_monotone c1 c2 :
  1 <= c1 -> c1 <= c2 -> c2 <= kPwmMaxInput_ ->
  SFleb (drive_duty c1) (drive_duty c2) = true.
Proof.
  intros H1 H12 H2.
  replace c2 with (c1 + Z.of_nat (Z.to_nat (c2 - c1))) in * by lia.
  induction (Z.to_nat (c2 - c1)) as [|n IH].
  - rewrite Z.add_0_r.
    pose proof (drive_duty_positive c1 ltac:(lia)) as Hpos.
    destruct (drive_duty c1) as [| | |[] mc ec]; try discriminate.
    apply SFleb_positive. lia.
  - apply (SFleb_positive_trans _ (drive_duty (c1 + Z.of_nat n)));
      try (apply drive_duty_positive; lia).
    + apply IH; lia.
    + replace (c1 + Z.of_nat (S n)) with (c1 + Z.of_nat n + 1) by lia.
      apply drive_duty_step. lia.
Qed.

Lemma positive_finite_nonzero f :
  positive_finite f = true -> SFltb Float.zero f = true.
Proof. destruct f as [| | |[] mf ef]; try discriminate. reflexivity. Qed.

(** C6.  With a nonzero clamped speed [setSpeed] returns, having written
    the duty [clamped * percent_per_count_] (binary32) to output A for CW
    or output B for CCW and 0.0 to the other output; the duty written is
    strictly positive, and it does not decrease when the clamped speed
    grows. *)
Theorem setSpeed_drive_monotone
    (undefined_int64 : spec_float -> Z) (fuel : nat)
    (speed1 speed2 : Z) (dir : Dir) (m1 m2 : t) :
  MathFns.clamp speed1 0 kPwmMaxInput_ <> 0 ->
  MathFns.clamp speed1 0 kPwmMaxInput_
    <= MathFns.clamp speed2 0 kPwmMaxInput_ ->
  exists r1 r2,
    setSpeed undefined_int64 fuel speed1 dir m1 = Some r1 /\
    setSpeed undefined_int64 fuel speed2 dir m2 = Some r2 /\
    driven dir r1 = drive_duty (MathFns.clamp speed1 0 kPwmMaxInput_) /\
    driven dir r2 = drive_duty (MathFns.clamp speed2 0 kPwmMaxInput_) /\
    SFleb (driven dir r1) (driven dir r2) = true /\
    SFltb Float.zero (driven dir r1) = true /\
    SFltb Float.zero (driven dir r2) = true /\
    idle dir r1 = Float.zero /\ idle dir r2 = Float.zero.
Proof.
  intros Hnz Hle.
  pose proof (clamp_range speed1 0 kPwmMaxInput_
                ltac:(rewrite kPwmMaxInput_value; lia)) as Hc1.
  pose proof (clamp_range speed2 0 kPwmMaxInput_
                ltac:(rewrite kPwmMaxInput_value; lia)) as Hc2.
  set (c1 := MathFns.clamp speed1 0 kPwmMaxInput_) in *.
  set (c2 := MathFns.clamp speed2 0 kPwmMaxInput_) in *.
  assert (Hd : forall speed m,
            MathFns.clamp speed 0 kPwmMaxInput_ <> 0 ->
            exists r, setSpeed undefined_int64 fuel speed dir m = Some r /\
              driven dir r
                = drive_duty (MathFns.clamp speed 0 kPwmMaxInput_) /\
              idle dir r = Float.zero).
  { intros speed m Hs. unfold setSpeed.
    replace (_ =? 0) with false by (symmetry; lia).
    destruct dir; eexists; (split; [reflexivity|]); split; reflexivity. }
  destruct (Hd speed1 m1 Hnz) as (r1 & Hr1 & Hdr1 & Hid1).
  destruct (Hd speed2 m2 ltac:(fold c2; lia)) as (r2 & Hr2 & Hdr2 & Hid2).
  exists r1, r2. fold c1 in Hdr1. fold c2 in Hdr2.
  split; [exact Hr1|]. split; [exact Hr2|].
  split; [exact Hdr1|]. split; [exact Hdr2|].
  rewrite Hdr1, Hdr2.
  split; [apply drive_duty_monotone; lia|].
  split; [apply positive_finite_nonzero, drive_duty_positive; lia|].
  split; [apply positive_finite_nonzero, drive_duty_positive; lia|].
  split; assumption.
Qed.

Lemma setSpeed_drive_monotone_witness :
  exists r1 r2,
    setSpeed no_int64 0 100 CW (configured MotorBehaviorConfig_default)
      = Some r1 /\
    setSpeed no_int64 0 2000 CW (configured MotorBehaviorConfig_default)
      = Some r2 /\
    SFleb (duty_a (hw r1)) (duty_a (hw r2)) = true /\
    duty_b (hw r1) = Float.zero /\ duty_b (hw r2) = Float.zero.
Proof.
  destruct (setSpeed_drive_monotone no_int64 0 100 2000 CW
              (configured MotorBehaviorConfig_default)
              (configured MotorBehaviorConfig_default))
    as (r1 & r2 & H1 & H2 & _ & _ & Hle & _ & _ & Hi1 & Hi2).
  - vm_compute. discriminate.
  - vm_compute. discriminate.
  - exists r1, r2. auto.
Defined.

(** Scenario 6 of the specification: [setSpeed(2000, CW)] is clamped to
    1023 and puts output A at 100% and output B at 0%. *)
Example setSpeed_2000_CW :
  exists r,
    setSpeed no_int64 0 2000 CW (configured MotorBehaviorConfig_default)
      = Some r /\
    duty_a (hw r) = Float.hundred /\ duty_b (hw r) = Float.zero.
Proof.
  eexists. split; [vm_compute; reflexivity|].
  split; vm_compute; reflexivity.
Qed.

(** ** Phase durations (C2) *)

Lemma floored_bounds us :
  us <= floored us <= us + (kMinPhaseUs - 1) /\
  (floored us <= 0 \/ kMinPhaseUs <= floored us) /\
  (us <= 0 \/ kMinPhaseUs <= us -> floored us = us).
Proof.
  unfold floored, kMinPhaseUs.
  destruct (us <? 1500) eqn:H1, (us >? 0) eqn:H2; cbn; lia.
Qed.

Lemma recompute_durations undef m :
  soft_us_brake_ (recomputeSoftDurations undef m)
    = floored (brake_int undef m) /\
  soft_us_coast_ (recomputeSoftDurations undef m)
    = floored (period_int undef m - brake_int undef m).
Proof.
  unfold recomputeSoftDurations, split_period, floored, brake_int,
    period_int, period_us, level_of. cbn.
  set (B := Float.to_int64 undef (Float.mul64 _ _)).
  set (T := Float.to_int64 undef (Float.div64 _ _)).
  destruct ((B <? kMinPhaseUs) && (B >? 0)); cbn;
    destruct ((T - B <? kMinPhaseUs) && (T - B >? 0)); cbn;
    split; reflexivity.
Qed.

Lemma engage_durations undef m :
  soft_us_brake_ (engage undef m) = brake_int undef m /\
  soft_us_coast_ (engage undef m) = period_int undef m - brake_int undef m.
Proof.
  assert (H : soft_us_brake_
                (split_period undef (recomputeSoftDurations undef m))
              = brake_int undef m /\
              soft_us_coast_
                (split_period undef (recomputeSoftDurations undef m))
              = period_int undef m - brake_int undef m).
  { pose proof (recompute_level undef m) as Hl.
    destruct (recompute_frame undef m) as (_ & _ & _ & _ & Hz & _).
    unfold split_period, brake_int, period_int, period_us in *. cbn.
    rewrite Hl, Hz. split; reflexivity. }
  unfold engage. cbv zeta.
  destruct (negb _); [|exact H].
  unfold scheduleNextPhase, applyPhase, writeAB. cbn.
  repeat case_match; cbn; exact H.
Qed.

Lemma scheduleNextPhase_arms m :
  soft_active_ m = true ->
  timer (hw (scheduleNextPhase m)) = Some (armed_us m) /\
  kMinPhaseUs <= armed_us m.
Proof.
  unfold scheduleNextPhase, armed_us, kMinPhaseUs. intros ->. cbn.
  destruct (soft_phase_ m); case_match; cbn; split; (f_equal; lia) || lia.
Qed.

(** C2, as the code has it.  Write [period] for the truncated period
    [1e6 / soft_hz_] and [brake] for the truncated [period * level].
    - [recomputeSoftDurations] stores [brake] and [period - brake], each
      raised to [kMinPhaseUs] when it lies strictly between 0 and
      [kMinPhaseUs]: every stored value is then at most 0 or at least
      [kMinPhaseUs], and their sum is [period] when no value was raised
      and exceeds it by less than [2 * kMinPhaseUs] otherwise.
    - [startSoftBrake], when it engages the dither, stores the exact split
      again: the sum is [period] and a phase may be shorter than
      [kMinPhaseUs].
    - [scheduleNextPhase] arms the one-shot with the duration of the
      current phase raised to [kMinPhaseUs], so every scheduled phase lasts
      at least [kMinPhaseUs].
    - At 300 Hz, duty 512 of 1023 gives brake 1668 us and coast 1665 us,
      and every duty from 0 to 1023 gives, after
      [recomputeSoftDurations], non-negative durations that are 0 or at
      least 1500 us and add up to between 3333 and 4832 us. *)
Theorem soft_brake_durations
    (undefined_int64 : spec_float -> Z) (m : t) :
  let period := period_int undefined_int64 m in
  let brake := brake_int undefined_int64 m in
  let r := recomputeSoftDurations undefined_int64 m in
  let e := engage undefined_int64 m in
  (soft_us_brake_ r = floored brake /\
   soft_us_coast_ r = floored (period - brake) /\
   (soft_us_brake_ r <= 0 \/ kMinPhaseUs <= soft_us_brake_ r) /\
   (soft_us_coast_ r <= 0 \/ kMinPhaseUs <= soft_us_coast_ r) /\
   period <= soft_us_brake_ r + soft_us_coast_ r
          <= period + 2 * (kMinPhaseUs - 1) /\
   ((brake <= 0 \/ kMinPhaseUs <= brake) ->
    (period - brake <= 0 \/ kMinPhaseUs <= period - brake) ->
    soft_us_brake_ r + soft_us_coast_ r = period)) /\
  (soft_us_brake_ e = brake /\ soft_us_coast_ e = period - brake /\
   soft_us_brake_ e + soft_us_coast_ e = period) /\
  (forall m', soft_active_ m' = true ->
     timer (hw (scheduleNextPhase m')) = Some (armed_us m') /\
     kMinPhaseUs <= armed_us m') /\
  (forall pwm, 0 <= pwm <= kPwmMaxInput_ ->
     let m300 :=
       set_soft_brake_pwm pwm (configured MotorBehaviorConfig_default) in
     let b := soft_us_brake_ (recomputeSoftDurations undefined_int64 m300) in
     let c := soft_us_coast_ (recomputeSoftDurations undefined_int64 m300) in
     period_int undefined_int64 m300 = 3333 /\
     (b = 0 \/ kMinPhaseUs <= b) /\ (c = 0 \/ kMinPhaseUs <= c) /\
     3333 <= b + c <= 4832 /\
     (pwm = 512 ->
      b = 1668 /\ c = 1665 /\
      soft_us_brake_ (engage undefined_int64 m300) = 1668 /\
      soft_us_coast_ (engage undefined_int64 m300) = 1665)).
Proof.
  intros period brake r e.
  destruct (recompute_durations undefined_int64 m) as [Hb Hc].
  destruct (engage_durations undefined_int64 m) as [Heb Hec].
  fold r in Hb, Hc. fold e in Heb, Hec.
  fold brake in Hb, Hc, Heb, Hec. fold period in Hc, Hec.
  pose proof (floored_bounds brake) as (Hb1 & Hb2 & Hb3).
  pose proof (floored_bounds (period - brake)) as (Hc1 & Hc2 & Hc3).
  split.
  { rewrite Hb, Hc. repeat split; try tauto; lia. }
  split; [rewrite Heb, Hec; repeat split; lia|].
  split; [apply scheduleNextPhase_arms|].
  intros pwm Hpwm m300 b c.
  destruct (recompute_durations undefined_int64 m300) as [Hb' Hc'].
  destruct (engage_durations undefined_int64 m300) as [Heb' Hec'].
  fold b in Hb'. fold c in Hc'.
  assert (HT : period_int undefined_int64 m300 = 3333)
    by (vm_compute; reflexivity).
  assert (HB : 0 <= brake_int undefined_int64 m300 <= 3333).
  { rewrite kPwmMaxInput_value in Hpwm.
    pose proof (range_check
      (fun p =>
         let v := brake_int undefined_int64
                    (set_soft_brake_pwm p
                       (configured MotorBehaviorConfig_default)) in
         (0 <=? v) && (v <=? 3333)) 0 1024) as Hall.
    cbv zeta in Hall. specialize (Hall ltac:(vm_compute; reflexivity) pwm).
    unfold m300. lia. }
  rewrite HT in *.
  pose proof (floored_bounds (brake_int undefined_int64 m300))
    as (Fb1 & Fb2 & Fb3).
  pose proof (floored_bounds (3333 - brake_int undefined_int64 m300))
    as (Fc1 & Fc2 & Fc3).
  rewrite <- Hb' in Fb1, Fb2, Fb3. rewrite <- Hc' in Fc1, Fc2, Fc3.
  unfold kMinPhaseUs in *.
  split; [reflexivity|]. split; [lia|]. split; [lia|]. split; [lia|].
  intros ->. clear - Hb' Hc' Heb' Hec' HT.
  subst m300 b c. rewrite Hb', Hc', Heb', Hec'.
  assert (HB : brake_int undefined_int64
                 (set_soft_brake_pwm 512
                    (configured MotorBehaviorConfig_default)) = 1668)
    by (vm_compute; reflexivity).
  rewrite HB. repeat split; reflexivity.
Qed.

Lemma soft_brake_durations_witness :
  let m := set_soft_brake_pwm 512 (configured MotorBehaviorConfig_default) in
  soft_us_brake_ (recomputeSoftDurations no_int64 m) = 1668 /\
  soft_us_coast_ (recomputeSoftDurations no_int64 m) = 1665.
Proof.
  intros m.
  destruct (soft_brake_durations no_int64 m) as (_ & _ & _ & H).
  destruct (H 512) as (_ & _ & _ & _ & H512).
  - vm_compute. split; discriminate.
  - destruct (H512 eq_refl) as (Hb & Hc & _). split; assumption.
Defined.

(** C2 as stated fails for the durations [startSoftBrake] leaves behind.
    Engaging the dither with the default duty 50 at 300 Hz (level about
    0.049, strictly between 0 and 1) stores a brake duration of 162 us,
    which is neither zero nor at least the 1500 us minimum. *)
Lemma engaged_brake_duration_below_minimum :
  let r := dithering_example MotorBehaviorConfig_default in
  setSpeed no_int64 1 0 CW (configured MotorBehaviorConfig_default)
    = Some r /\
  soft_active_ r = true /\
  SFltb Float.zero (soft_level_ r) = true /\
  SFltb (soft_level_ r) Float.one = true /\
  soft_us_brake_ r = 162 /\ soft_us_coast_ r = 3171 /\
  soft_us_brake_ r <> 0 /\ soft_us_brake_ r < kMinPhaseUs.
Proof.
  cbv zeta. split; [apply dithering_example_reached|].
  repeat split; vm_compute; (reflexivity || discriminate).
Qed.

(** ** What the driver issues to the hardware, and what it never issues *)

Lemma extends_refl m : extends m m.
Proof.
  split; [reflexivity|]. split; [reflexivity|].
  exists []. rewrite app_nil_r. split; [reflexivity|constructor].
Qed.

Lemma allowed_call_frame m r c :
  use_en_ r = use_en_ m -> en_pin_ r = en_pin_ m ->
  allowed_call r c -> allowed_call m c.
Proof. destruct c; cbn; intros Hu Hp; rewrite ?Hu, ?Hp; auto. Qed.

Lemma extends_trans m1 m2 m3 :
  extends m1 m2 -> extends m2 m3 -> extends m1 m3.
Proof.
  intros (Hu1 & Hp1 & new1 & Hc1 & Ha1) (Hu2 & Hp2 & new2 & Hc2 & Ha2).
  split; [congruence|]. split; [congruence|].
  exists (new1 ++ new2). split.
  - rewrite Hc2, Hc1, app_assoc. reflexivity.
  - apply Forall_app. split; [exact Ha1|].
    eapply Forall_impl; [exact Ha2|].
    intros c. apply allowed_call_frame; assumption.
Qed.

Lemma extends_same_calls m r :
  use_en_ r = use_en_ m -> en_pin_ r = en_pin_ m ->
  calls (hw r) = calls (hw m) -> extends m r.
Proof.
  intros Hu Hp Hc. split; [exact Hu|]. split; [exact Hp|].
  exists []. rewrite app_nil_r. split; [exact Hc|constructor].
Qed.

Lemma extends_stop m : extends m (stopSoftBrake m).
Proof.
  unfold stopSoftBrake. destruct (soft_active_ m); [|apply extends_refl].
  split; [reflexivity|]. split; [reflexivity|].
  exists [esp_timer_stop]. split; [reflexivity|].
  repeat constructor.
Qed.

Lemma extends_enable on m : extends m (setEnable on m).
Proof.
  unfold setEnable. destruct (use_en_ m) eqn:Hu; [|apply extends_refl].
  destruct (negb _); [|apply extends_refl].
  split; [cbn; congruence|]. split; [reflexivity|].
  exists [digitalWrite (en_pin_ m) on].
  split; [reflexivity|]. repeat constructor. cbn. auto.
Qed.

Lemma extends_write a b m :
  duty_written a -> duty_written b -> extends m (writeAB a b m).
Proof.
  intros Ha Hb. split; [reflexivity|]. split; [reflexivity|].
  exists [mcpwm_set_duty MCPWM_OPR_A a; mcpwm_set_duty MCPWM_OPR_B b].
  split; [cbn; rewrite <- app_assoc; reflexivity|].
  constructor; [exact Ha|]. constructor; [exact Hb|]. constructor.
Qed.

Lemma extends_schedule m : extends m (scheduleNextPhase m).
Proof.
  unfold scheduleNextPhase. destruct (negb _); [apply extends_refl|].
  split; [reflexivity|]. split; [reflexivity|].
  eexists. split; [reflexivity|].
  repeat constructor. cbn. unfold kMinPhaseUs.
  destruct (soft_phase_ m); case_match; lia.
Qed.

Lemma duty_written_zero : duty_written Float.zero.
Proof. left. reflexivity. Qed.

Lemma duty_written_hundred : duty_written Float.hundred.
Proof. right. left. reflexivity. Qed.

Lemma extends_applyPhase p m : extends m (applyPhase p m).
Proof.
  destruct p; cbn [applyPhase].
  - apply extends_write; apply duty_written_zero.
  - eapply extends_trans; [apply extends_enable|].
    apply extends_write; apply duty_written_hundred.
Qed.

Lemma extends_recompute undef m : extends m (recomputeSoftDurations undef m).
Proof.
  destruct (recompute_frame undef m)
    as (_ & _ & _ & _ & _ & Hu & _ & Hp & Hh).
  apply extends_same_calls; congruence.
Qed.

Lemma extends_setSoftBrakePWM undef pwm m :
  extends m (setSoftBrakePWM undef pwm m).
Proof.
  destruct (setSoftBrakePWM_frame undef pwm m)
    as (_ & _ & _ & _ & _ & Hu & _ & Hp & Hh).
  apply extends_same_calls; congruence.
Qed.

Lemma extends_brake_now m :
  extends m (writeAB Float.hundred Float.hundred
               (setEnable true (stopSoftBrake m))).
Proof.
  eapply extends_trans; [apply extends_stop|].
  eapply extends_trans; [apply extends_enable|].
  apply extends_write; apply duty_written_hundred.
Qed.

Lemma extends_engage undef m : extends m (engage undef m).
Proof.
  unfold engage. cbv zeta.
  assert (H2 : extends m (split_period undef (recomputeSoftDurations undef m))).
  { apply (extends_trans _ (recomputeSoftDurations undef m));
      [apply extends_recompute|].
    destruct (split_period_frame undef (recomputeSoftDurations undef m))
      as (_ & _ & _ & _ & _ & Hu & _ & Hp & Hh & _).
    apply extends_same_calls; congruence. }
  destruct (negb _); [|exact H2].
  eapply extends_trans; [exact H2|].
  eapply extends_trans; [|apply extends_schedule].
  eapply extends_trans; [|apply extends_applyPhase].
  apply extends_same_calls; reflexivity.
Qed.

(** [startSoftBrake] unfolded once, with no assumption on the stored duty. *)
Lemma startSoftBrake_unfold undef fuel m :
  startSoftBrake undef (S fuel) m =
  if SFleb (level_of (soft_brake_pwm_ m)) Float.lit_0_001f then
    setFreewheel undef fuel (stopSoftBrake (recomputeSoftDurations undef m))
  else if SFleb Float.lit_0_999f (level_of (soft_brake_pwm_ m)) then
    Some (writeAB Float.hundred Float.hundred
            (setEnable true
               (stopSoftBrake (recomputeSoftDurations undef m))))
  else Some (engage undef m).
Proof.
  cbn [startSoftBrake]. rewrite recompute_level.
  destruct (SFleb _ Float.lit_0_001f); [reflexivity|].
  destruct (SFleb Float.lit_0_999f _); [reflexivity|].
  unfold engage. cbv zeta. destruct (negb _); reflexivity.
Qed.

Lemma extends_freewheel undef : forall fuel m r,
  (setFreewheel undef fuel m = Some r -> extends m r) /\
  (startSoftBrake undef fuel m = Some r -> extends m r).
Proof.
  induction fuel as [|fuel IH]; intros m r; [split; discriminate|].
  split.
  - rewrite setFreewheel_S.
    destruct (freewheel_mode (beh_ m)).
    + intros [= <-].
      eapply extends_trans; [apply extends_stop|].
      eapply extends_trans; [apply extends_enable|].
      apply extends_write; apply duty_written_zero.
    + intros [= <-].
      eapply extends_trans; [apply extends_stop|].
      eapply extends_trans; [apply extends_enable|].
      apply extends_write; apply duty_written_zero.
    + intros H. apply IH in H.
      eapply extends_trans; [apply extends_stop|].
      eapply extends_trans; [|exact H]. apply extends_setSoftBrakePWM.
  - rewrite startSoftBrake_unfold.
    destruct (SFleb _ Float.lit_0_001f).
    + intros H. apply IH in H.
      apply (extends_trans _ (recomputeSoftDurations undef m));
        [apply extends_recompute|].
      eapply extends_trans; [apply extends_stop|exact H].
    + destruct (SFleb Float.lit_0_999f _); intros [= <-].
      * apply (extends_trans _ (recomputeSoftDurations undef m));
          [apply extends_recompute|].
        apply extends_brake_now.
      * apply extends_engage.
Qed.

Lemma extends_timer_fire m r : timer_fire m = Some r -> extends m r.
Proof.
  unfold timer_fire, softBrakeISR.
  destruct (timer (hw m)); [|discriminate]. intros [= <-].
  eapply extends_trans; [|apply extends_schedule].
  eapply extends_trans; [|apply extends_applyPhase].
  apply extends_same_calls; reflexivity.
Qed.

Lemma extends_exec undef fuel c m r :
  exec undef fuel c m = Some r -> extends m r.
Proof.
  destruct c as [speed dir| | |pwm|]; cbn [exec].
  - unfold setSpeed.
    destruct (_ =? 0) eqn:Hz; [apply extends_freewheel|].
    pose proof (clamp_range speed 0 kPwmMaxInput_
                  ltac:(rewrite kPwmMaxInput_value; lia)) as Hc.
    assert (Hd : duty_written
                   (Float.mul32
                      (Float.of_Z32 (MathFns.clamp speed 0 kPwmMaxInput_))
                      percent_per_count_)).
    { right. right. eexists. split; [|reflexivity]. lia. }
    destruct dir; intros [= <-];
      (eapply extends_trans; [apply extends_stop|]);
      (eapply extends_trans; [apply extends_enable|]);
      apply extends_write; auto using duty_written_zero.
  - apply extends_freewheel.
  - intros [= <-]. apply extends_brake_now.
  - intros [= <-]. apply extends_setSoftBrakePWM.
  - apply extends_timer_fire.
Qed.

(** Whatever is done with a driver, it issues only these calls: timer
    stops; one-shot armings of at least [kMinPhaseUs]; duties of 0%, 100%
    or the drive duty of a clamped speed; and writes to the enable pin,
    which it makes on [en_pin_] and only when an enable pin is configured.
    It never initialises a peripheral or creates a timer again. *)
Theorem hardware_calls_allowed
    (undefined_int64 : spec_float -> Z) (fuel : nat)
    (cs : list Call) (m r : t) :
  exec_all undefined_int64 fuel cs m = Some r ->
  use_en_ r = use_en_ m /\ en_pin_ r = en_pin_ m /\
  exists new,
    calls (hw r) = calls (hw m) ++ new /\ Forall (allowed_call m) new.
Proof.
  revert m. induction cs as [|c cs IH]; intros m; cbn [exec_all].
  - intros [= <-]. apply extends_refl.
  - destruct (exec undefined_int64 fuel c m) as [m'|] eqn:Hc; [|discriminate].
    intros H. apply IH in H. apply extends_exec in Hc.
    exact (extends_trans _ _ _ Hc H).
Qed.

Lemma hardware_calls_allowed_witness :
  let cfg := {| lpwm_pin := 37; rpwm_pin := 38; en_pin := -1 |} in
  let m := setup2 cfg MotorBehaviorConfig_default (make Hardware_reset) in
  exists r new,
    exec_all no_int64 3
      [CallSetSpeed 0 CW; TimerExpires; CallSetFreewheel;
       CallSetSpeed 700 CCW] m
    = Some r /\
    calls (hw r) = calls (hw m) ++ new /\
    Forall (fun c => forall pin level, c <> digitalWrite pin level) new.
Proof.
  intros cfg m.
  destruct (exec_all no_int64 3
              [CallSetSpeed 0 CW; TimerExpires; CallSetFreewheel;
               CallSetSpeed 700 CCW] m) as [r|] eqn:Hr;
    [|vm_compute in Hr; discriminate Hr].
  destruct (hardware_calls_allowed no_int64 3 _ m r Hr)
    as (_ & _ & new & Hc & Hall).
  exists r, new. split; [reflexivity|]. split; [exact Hc|].
  eapply Forall_impl; [exact Hall|].
  intros c Hallowed pin level ->. cbn in Hallowed.
  destruct Hallowed as [Hu _]. vm_compute in Hu. discriminate Hu.
Defined.

(** ** The invariant of the driver state *)

Lemma wf_freewheel undef : forall fuel m r,
  wf m ->
  (setFreewheel undef fuel m = Some r -> wf r) /\
  (startSoftBrake undef fuel m = Some r -> wf r).
Proof.
  induction fuel as [|fuel IH]; intros m r Hwf; [split; discriminate|].
  pose proof Hwf as (Hpwm & _).
  split.
  - rewrite setFreewheel_S.
    destruct (freewheel_mode (beh_ m)).
    + intros [= <-]. apply (stop_enable_write false _ _ m Hwf).
    + intros [= <-]. apply (stop_enable_write true _ _ m Hwf).
    + apply IH. apply setSoftBrakePWM_wf.
      apply (stopSoftBrake_outcome m Hwf).
  - rewrite startSoftBrake_S by exact Hpwm.
    pose proof (recompute_wf undef m Hwf) as Hwf1.
    destruct (_ <=? 1).
    + apply IH. apply (stopSoftBrake_outcome _ Hwf1).
    + destruct (1022 <=? _); intros [= <-].
      * apply (stop_enable_write true _ _ _ Hwf1).
      * apply (engage_outcome undef m Hwf).
Qed.

Lemma wf_exec undef fuel c m r :
  wf m -> exec undef fuel c m = Some r -> wf r.
Proof.
  intros Hwf. destruct c as [speed dir| | |pwm|]; cbn [exec].
  - unfold setSpeed. destruct (_ =? 0).
    + apply wf_freewheel, Hwf.
    + destruct dir; intros [= <-]; apply (stop_enable_write true _ _ m Hwf).
  - apply wf_freewheel, Hwf.
  - intros [= <-]. apply (stop_enable_write true _ _ m Hwf).
  - intros [= <-]. apply setSoftBrakePWM_wf, Hwf.
  - intros Hf. pose proof Hwf as (_ & _ & Htm).
    unfold timer_fire in Hf.
    destruct (timer (hw m)) as [us|] eqn:Ht; [|discriminate].
    destruct (timer_fire_dithering m Hwf (proj1 Htm))
      as (r' & us' & Hf' & Hw' & _).
    unfold timer_fire in Hf'. rewrite Ht in Hf'. congruence.
Qed.

(** After [setup] of a fresh driver and any history of commands and timer
    expiries, the stored soft-brake duty lies in [0, kPwmMaxInput_],
    [en_state_] equals the level last written to the enable pin, and the
    one-shot is armed, with at least [kMinPhaseUs], exactly when the
    soft-brake cycle is active. *)
Theorem driver_invariant
    (undefined_int64 : spec_float -> Z) (fuel : nat)
    (cfg : MotorMCPWMConfig) (beh : MotorBehaviorConfig)
    (cs : list Call) (r : t) :
  exec_all undefined_int64 fuel cs (setup2 cfg beh (make Hardware_reset))
    = Some r ->
  0 <= soft_brake_pwm_ r <= kPwmMaxInput_ /\
  en_level (hw r) = en_state_ r /\
  (soft_active_ r = true <->
   exists us, timer (hw r) = Some us /\ kMinPhaseUs <= us) /\
  (soft_active_ r = false <-> timer (hw r) = None).
Proof.
  intros Hr.
  assert (Hwf : wf r).
  { pose proof (setup2_wf cfg beh) as Hwf0.
    revert Hr Hwf0. generalize (setup2 cfg beh (make Hardware_reset)).
    induction cs as [|c cs IH]; intros m; cbn [exec_all].
    - intros [= <-]. auto.
    - destruct (exec undefined_int64 fuel c m) as [m'|] eqn:Hc;
        [|discriminate].
      intros H Hwf. apply (IH m' H). exact (wf_exec _ _ _ _ _ Hwf Hc). }
  destruct Hwf as (Hpwm & Hen & Htm).
  split; [exact Hpwm|]. split; [exact Hen|].
  destruct (timer (hw r)) as [us|].
  - destruct Htm as [Ha Hus]. split.
    + split; [intros _; exists us; auto|intros _; exact Ha].
    + split; [congruence|discriminate].
  - split.
    + split; [congruence|intros (us & Hf & _); discriminate].
    + split; auto.
Qed.

Lemma driver_invariant_witness :
  exists r,
    exec_all no_int64 3
      [CallSetSoftBrakePWM 5000; CallSetSpeed (-4) CW; CallSetSoftBrakePWM 400;
       CallSetSpeed 0 CCW; TimerExpires; TimerExpires]
      (setup2 DRIVE_MCPWM MotorBehaviorConfig_default (make Hardware_reset))
    = Some r /\
    soft_active_ r = true /\
    exists us, timer (hw r) = Some us /\ kMinPhaseUs <= us.
Proof.
  destruct (exec_all no_int64 3
      [CallSetSoftBrakePWM 5000; CallSetSpeed (-4) CW; CallSetSoftBrakePWM 400;
       CallSetSpeed 0 CCW; TimerExpires; TimerExpires]
      (setup2 DRIVE_MCPWM MotorBehaviorConfig_default (make Hardware_reset)))
    as [r|] eqn:Hr; [|vm_compute in Hr; discriminate Hr].
  exists r. split; [reflexivity|].
  destruct (driver_invariant no_int64 3 _ _ _ r Hr) as (_ & _ & Hact & _).
  assert (Ha : soft_active_ r = true).
  { vm_compute in Hr. injection Hr as <-. reflexivity. }
  split; [exact Ha|]. apply Hact, Ha.
Defined.

(** ** Hard brake and freewheel *)

(** [setHardBrake], from any state of the driver, leaves both outputs at
    100%, the enable line asserted when there is one, the soft-brake cycle
    off and the one-shot idle. *)
Theorem setHardBrake_brakes (m : t) :
  wf m ->
  hard_braking (setHardBrake m) /\ wf (setHardBrake m).
Proof.
  intros Hwf. unfold setHardBrake, hard_braking.
  destruct (stop_enable_write true Float.hundred Float.hundred m Hwf)
    as (Hw & _ & _ & Ha & Ht & Hda & Hdb & Hen & _).
  tauto.
Qed.

Lemma setHardBrake_brakes_witness :
  duty_a (hw (setHardBrake (dithering_example MotorBehaviorConfig_default)))
    = Float.hundred /\
  timer (hw (setHardBrake (dithering_example MotorBehaviorConfig_default)))
    = None.
Proof.
  destruct (setHardBrake_brakes
              (dithering_example MotorBehaviorConfig_default))
    as ((_ & Ht & Hda & _) & _).
  - vm_compute. repeat split; (reflexivity || discriminate).
  - split; assumption.
Defined.

(** [setFreewheel] in the HiZ and HiZ_Awake sub-modes returns at once with
    both outputs at 0%, the cycle off and the one-shot idle; on a driver
    with an enable pin, HiZ leaves the enable line low and HiZ_Awake leaves
    it high. *)
Theorem setFreewheel_coasts
    (undefined_int64 : spec_float -> Z) (m : t) :
  wf m -> freewheel_mode (beh_ m) <> DitherBrake ->
  exists r,
    (forall fuel, setFreewheel undefined_int64 (S fuel) m = Some r) /\
    wf r /\ soft_active_ r = false /\ timer (hw r) = None /\
    duty_a (hw r) = Float.zero /\ duty_b (hw r) = Float.zero /\
    (use_en_ m = true ->
     en_level (hw r)
     = match freewheel_mode (beh_ m) with HiZ => false | _ => true end).
Proof.
  intros Hwf Hmode.
  destruct (freewheel_mode (beh_ m)) eqn:Hm; [| |congruence].
  - destruct (stop_enable_write false Float.zero Float.zero m Hwf)
      as (Hw & _ & Hu & Ha & Ht & Hda & Hdb & Hen & _).
    eexists. split; [intros fuel; rewrite setFreewheel_S, Hm; reflexivity|].
    unfold enable_is in Hen. rewrite Hu in Hen. tauto.
  - destruct (stop_enable_write true Float.zero Float.zero m Hwf)
      as (Hw & _ & Hu & Ha & Ht & Hda & Hdb & Hen & _).
    eexists. split; [intros fuel; rewrite setFreewheel_S, Hm; reflexivity|].
    unfold enable_is in Hen. rewrite Hu in Hen. tauto.
Qed.

Lemma setFreewheel_coasts_witness :
  exists r,
    setFreewheel no_int64 1 (dithering_example MotorBehaviorConfig_default)
      = Some r /\
    en_level (hw r) = false /\ timer (hw r) = None.
Proof.
  destruct (setFreewheel_coasts no_int64
              (dithering_example MotorBehaviorConfig_default))
    as (r & Hr & _ & _ & Ht & _ & _ & Hen).
  - vm_compute. repeat split; (reflexivity || discriminate).
  - vm_compute. discriminate.
  - exists r. split; [apply Hr|]. split; [|exact Ht].
    apply Hen. vm_compute. reflexivity.
Defined.

(** ** Speed commands out of range, and reversing *)

Lemma drive_duty_max : drive_duty kPwmMaxInput_ = Float.hundred.
Proof. vm_compute. reflexivity. Qed.

Lemma setSpeed_drive undef fuel speed dir m :
  MathFns.clamp speed 0 kPwmMaxInput_ <> 0 ->
  exists r,
    setSpeed undef fuel speed dir m = Some r /\
    driven dir r = drive_duty (MathFns.clamp speed 0 kPwmMaxInput_) /\
    idle dir r = Float.zero /\
    duty_a (hw r)
      = match dir with
        | CW => drive_duty (MathFns.clamp speed 0 kPwmMaxInput_)
        | CCW => Float.zero
        end /\
    duty_b (hw r)
      = match dir with
        | CW => Float.zero
        | CCW => drive_duty (MathFns.clamp speed 0 kPwmMaxInput_)
        end.
Proof.
  intros Hs. unfold setSpeed.
  replace (_ =? 0) with false by (symmetry; lia).
  destruct dir; eexists; (split; [reflexivity|]); repeat split; reflexivity.
Qed.

(** [setSpeed] sees its argument through [clamp] only: a speed at or above
    [getMaxPwmInput()] drives at exactly 100%, a speed at or below 0 is the
    command for speed 0, and no drive duty exceeds 100%. *)
Theorem setSpeed_saturates
    (undefined_int64 : spec_float -> Z) (fuel : nat)
    (speed : Z) (dir : Dir) (m : t) :
  setSpeed undefined_int64 fuel speed dir m
    = setSpeed undefined_int64 fuel
        (MathFns.clamp speed 0 getMaxPwmInput) dir m /\
  (speed <= 0 ->
   setSpeed undefined_int64 fuel speed dir m
     = setSpeed undefined_int64 fuel 0 dir m) /\
  (getMaxPwmInput <= speed ->
   exists r, setSpeed undefined_int64 fuel speed dir m = Some r /\
             driven dir r = Float.hundred /\ idle dir r = Float.zero) /\
  (0 < speed ->
   exists r, setSpeed undefined_int64 fuel speed dir m = Some r /\
             SFltb Float.zero (driven dir r) = true /\
             SFleb (driven dir r) Float.hundred = true).
Proof.
  unfold getMaxPwmInput.
  pose proof (clamp_range speed 0 kPwmMaxInput_
                ltac:(rewrite kPwmMaxInput_value; lia)) as Hc.
  split; [|split; [|split]].
  - unfold setSpeed. rewrite (clamp_id (MathFns.clamp _ _ _)) by exact Hc.
    reflexivity.
  - intros Hneg. unfold setSpeed.
    replace (MathFns.clamp speed 0 kPwmMaxInput_) with 0
      by (unfold MathFns.clamp; repeat case_match; lia).
    reflexivity.
  - intros Hbig.
    assert (Hmax : MathFns.clamp speed 0 kPwmMaxInput_ = kPwmMaxInput_).
    { rewrite kPwmMaxInput_value in *.
      unfold MathFns.clamp; repeat case_match; lia. }
    destruct (setSpeed_drive undefined_int64 fuel speed dir m)
      as (r & Hr & Hd & Hi & _).
    { rewrite Hmax, kPwmMaxInput_value. lia. }
    exists r. rewrite Hd, Hmax, drive_duty_max. auto.
  - intros Hpos.
    assert (H1 : 1 <= MathFns.clamp speed 0 kPwmMaxInput_).
    { rewrite kPwmMaxInput_value in *.
      unfold MathFns.clamp; repeat case_match; lia. }
    destruct (setSpeed_drive undefined_int64 fuel speed dir m)
      as (r & Hr & Hd & _); [lia|].
    exists r. rewrite Hd. split; [exact Hr|]. split.
    + apply positive_finite_nonzero, drive_duty_positive. lia.
    + rewrite <- drive_duty_max. apply drive_duty_monotone; lia.
Qed.

Lemma setSpeed_saturates_witness :
  exists r,
    setSpeed no_int64 0 70000 CCW (configured MotorBehaviorConfig_default)
      = Some r /\
    duty_b (hw r) = Float.hundred /\ duty_a (hw r) = Float.zero.
Proof.
  destruct (setSpeed_saturates no_int64 0 70000 CCW
              (configured MotorBehaviorConfig_default))
    as (_ & _ & Hbig & _).
  destruct Hbig as (r & Hr & Hd & Hi); [vm_compute; discriminate|].
  exists r. auto.
Defined.

(** Reversing: [changeDir] is its own inverse and never returns its
    argument, and driving the same speed in the opposite direction swaps
    the duties of the two outputs. *)
Theorem reverse_swaps_outputs
    (undefined_int64 : spec_float -> Z) (fuel : nat)
    (speed : Z) (dir : Dir) (m1 m2 : t) :
  MathFns.clamp speed 0 kPwmMaxInput_ <> 0 ->
  changeDir (changeDir dir) = dir /\ changeDir dir <> dir /\
  exists r1 r2,
    setSpeed undefined_int64 fuel speed dir m1 = Some r1 /\
    setSpeed undefined_int64 fuel speed (changeDir dir) m2 = Some r2 /\
    duty_a (hw r2) = duty_b (hw r1) /\ duty_b (hw r2) = duty_a (hw r1).
Proof.
  intros Hs.
  split; [destruct dir; reflexivity|].
  split; [destruct dir; discriminate|].
  destruct (setSpeed_drive undefined_int64 fuel speed dir m1 Hs)
    as (r1 & Hr1 & _ & _ & Ha1 & Hb1).
  destruct (setSpeed_drive undefined_int64 fuel speed (changeDir dir) m2 Hs)
    as (r2 & Hr2 & _ & _ & Ha2 & Hb2).
  exists r1, r2. rewrite Ha1, Hb1, Ha2, Hb2.
  destruct dir; auto.
Qed.

Lemma reverse_swaps_outputs_witness :
  exists r1 r2,
    setSpeed no_int64 0 300 CW (configured MotorBehaviorConfig_default)
      = Some r1 /\
    setSpeed no_int64 0 300 CCW (configured MotorBehaviorConfig_default)
      = Some r2 /\
    duty_a (hw r2) = duty_b (hw r1) /\ duty_b (hw r2) = duty_a (hw r1).
Proof.
  destruct (reverse_swaps_outputs no_int64 0 300 CW
              (configured MotorBehaviorConfig_default)
              (configured MotorBehaviorConfig_default))
    as (_ & _ & H); [vm_compute; discriminate|exact H].
Defined.

(** ** The dither cycle *)

Lemma timer_fire_step m :
  wf m -> soft_active_ m = true ->
  exists r,
    timer_fire m = Some r /\ wf r /\ soft_active_ r = true /\
    soft_phase_ r
      = match soft_phase_ m with Coast => Brake | Brake => Coast end /\
    soft_us_brake_ r = soft_us_brake_ m /\
    soft_us_coast_ r = soft_us_coast_ m /\
    use_en_ r = use_en_ m /\
    timer (hw r) = Some (armed_us r) /\
    match soft_phase_ r with
    | Brake => duty_a (hw r) = Float.hundred /\
               duty_b (hw r) = Float.hundred /\ enable_is true r
    | Coast => duty_a (hw r) = Float.zero /\ duty_b (hw r) = Float.zero /\
               en_level (hw r) = en_level (hw m)
    end.
Proof.
  destruct m as [? ? ? use en pwm beh tmr act ph lvl hz ub uc
                 [da db enl tm cl]].
  unfold wf, timer_fire, softBrakeISR, applyPhase, armed_us, enable_is,
    scheduleNextPhase, writeAB, setEnable.
  cbn. intros (Hpwm & Hen & Htm) ->.
  destruct tm as [us0|]; [|discriminate].
  unfold kMinPhaseUs in *.
  destruct ph, use, en; cbn; repeat case_match; cbn;
    eexists; (split; [reflexivity|]); cbn;
    repeat split; try (reflexivity || lia || congruence);
    try (f_equal; lia).
Qed.

(** While the cycle runs, each expiry of the one-shot flips the phase,
    writes the pattern of the new phase (100%/100% with the enable line
    asserted for Brake, 0%/0% with the enable line left alone for Coast)
    and arms the one-shot for the duration of the new phase, raised to
    [kMinPhaseUs].  Two expiries bring the phase back, so a full cycle
    lasts [max(kMinPhaseUs, soft_us_brake_) + max(kMinPhaseUs,
    soft_us_coast_)] microseconds. *)
Theorem dither_cycle (m : t) :
  wf m -> soft_active_ m = true ->
  exists r1 r2 us1 us2,
    timer_fire m = Some r1 /\ timer_fire r1 = Some r2 /\
    soft_phase_ r1 <> soft_phase_ m /\ soft_phase_ r2 = soft_phase_ m /\
    soft_active_ r2 = true /\
    match soft_phase_ r1 with
    | Brake => duty_a (hw r1) = Float.hundred /\
               duty_b (hw r1) = Float.hundred /\ enable_is true r1
    | Coast => duty_a (hw r1) = Float.zero /\ duty_b (hw r1) = Float.zero /\
               en_level (hw r1) = en_level (hw m)
    end /\
    timer (hw r1) = Some us1 /\ timer (hw r2) = Some us2 /\
    us1 + us2 = Z.max kMinPhaseUs (soft_us_brake_ m)
                + Z.max kMinPhaseUs (soft_us_coast_ m).
Proof.
  intros Hwf Hact.
  destruct (timer_fire_step m Hwf Hact)
    as (r1 & Hf1 & Hw1 & Ha1 & Hp1 & Hb1 & Hc1 & _ & Ht1 & Hout1).
  destruct (timer_fire_step r1 Hw1 Ha1)
    as (r2 & Hf2 & Hw2 & Ha2 & Hp2 & Hb2 & Hc2 & _ & Ht2 & _).
  exists r1, r2, (armed_us r1), (armed_us r2).
  split; [exact Hf1|]. split; [exact Hf2|].
  split; [rewrite Hp1; destruct (soft_phase_ m); discriminate|].
  split; [rewrite Hp2, Hp1; destruct (soft_phase_ m); reflexivity|].
  split; [exact Ha2|]. split; [exact Hout1|].
  split; [exact Ht1|]. split; [exact Ht2|].
  unfold armed_us. rewrite Hp2, Hb2, Hc2, Hp1, Hb1, Hc1.
  destruct (soft_phase_ m); lia.
Qed.

Lemma dither_cycle_witness :
  exists r1 r2,
    timer_fire (dithering_example MotorBehaviorConfig_default) = Some r1 /\
    timer_fire r1 = Some r2 /\
    timer (hw r1) = Some 1500 /\ timer (hw r2) = Some 3171.
Proof.
  destruct (dither_cycle (dithering_example MotorBehaviorConfig_default))
    as (r1 & r2 & us1 & us2 & Hf1 & Hf2 & _).
  - vm_compute. repeat split; (reflexivity || discriminate).
  - vm_compute. reflexivity.
  - exists r1, r2. split; [exact Hf1|]. split; [exact Hf2|].
    vm_compute in Hf1. injection Hf1 as <-.
    vm_compute in Hf2. injection Hf2 as <-.
    split; reflexivity.
Defined.

(** ** Setup *)

Lemma setup2_calls cfg beh m :
  soft_timer_ (setup2 cfg beh m) = true /\
  exists new,
    calls (hw (setup2 cfg beh m))
      = calls (hw m) ++ new
          ++ (if soft_timer_ m then [] else [esp_timer_create]) /\
    Forall (fun c => c <> esp_timer_create) new.
Proof.
  destruct cfg as [lp rp ep],
           m as [? ? ? use en pwm b0 tmr act ph lvl hz0 ub uc
                 [da db enl tm cl]].
  unfold setup2, setEnable. cbn.
  split; [destruct (0 <=? ep), en, tmr; reflexivity|].
  exists ([mcpwm_gpio_init lp; mcpwm_gpio_init rp; mcpwm_init;
           mcpwm_set_duty_type MCPWM_OPR_A; mcpwm_set_duty_type MCPWM_OPR_B]
          ++ (if 0 <=? ep
              then pinMode_OUTPUT ep
                   :: (if en then [] else [digitalWrite ep true])
              else [])).
  destruct (0 <=? ep), en, tmr; cbn;
    (split; [rewrite <- ?app_assoc; reflexivity
            |repeat constructor; discriminate]).
Qed.

Lemma setup2_fresh cfg beh h :
  let m := setup2 cfg beh (make h) in
  use_en_ m = (0 <=? en_pin cfg) /\
  (0 <= en_pin cfg -> en_state_ m = true /\ en_level (hw m) = true) /\
  (en_pin cfg < 0 -> en_level (hw m) = en_level h) /\
  duty_a (hw m) = Float.zero /\ duty_b (hw m) = Float.zero /\
  soft_active_ m = false /\ soft_brake_pwm_ m = kDefaultBrake_ /\
  soft_hz_ m = soft_brake_hz beh /\ timer (hw m) = timer h /\
  last (calls (hw m)) = Some esp_timer_create.
Proof.
  destruct cfg as [lp rp ep], h as [da db enl tm cl].
  unfold setup2, setEnable, make. cbn.
  destruct (0 <=? ep) eqn:He; cbn; rewrite ?last_snoc;
    repeat split; intros; try reflexivity; lia.
Qed.

(** [setup] on a freshly constructed driver: the enable pin is used exactly
    when [en_pin >= 0] and is then driven high, both duties are 0, the
    soft-brake cycle is off with the default duty 50 stored, and the
    dither frequency is the profile's.  The one-shot timer is created on
    the first [setup] only: a later [setup] creates none. *)
Theorem setup_state
    (cfg cfg' : MotorMCPWMConfig) (beh beh' : MotorBehaviorConfig)
    (h : Hardware) :
  let m := setup2 cfg beh (make h) in
  let m' := setup2 cfg' beh' m in
  use_en_ m = (0 <=? en_pin cfg) /\
  (0 <= en_pin cfg -> en_state_ m = true /\ en_level (hw m) = true) /\
  (en_pin cfg < 0 -> en_level (hw m) = en_level h) /\
  duty_a (hw m) = Float.zero /\ duty_b (hw m) = Float.zero /\
  soft_active_ m = false /\ soft_brake_pwm_ m = kDefaultBrake_ /\
  soft_hz_ m = soft_brake_hz beh /\ timer (hw m) = timer h /\
  last (calls (hw m)) = Some esp_timer_create /\
  soft_timer_ m = true /\ soft_timer_ m' = true /\
  exists new, calls (hw m') = calls (hw m) ++ new /\
              Forall (fun c => c <> esp_timer_create) new.
Proof.
  intros m m'.
  pose proof (setup2_fresh cfg beh h) as Hfresh. cbv zeta in Hfresh.
  fold m in Hfresh.
  destruct (setup2_calls cfg beh (make h)) as (Ht & _). fold m in Ht.
  destruct (setup2_calls cfg' beh' m) as (Ht' & new & Hc & Hnew).
  fold m' in Ht', Hc. rewrite Ht, app_nil_r in Hc.
  repeat (split; [apply Hfresh|]).
  split; [exact Ht|]. split; [exact Ht'|].
  exists new. auto.
Qed.

Lemma setup_state_witness :
  let m := setup2 DRIVE_MCPWM MotorBehaviorConfig_default
             (make Hardware_reset) in
  en_state_ m = true /\ en_level (hw m) = true.
Proof.
  intros m.
  destruct (setup_state DRIVE_MCPWM DRIVE_MCPWM MotorBehaviorConfig_default
              MotorBehaviorConfig_default Hardware_reset)
    as (_ & Hen & _).
  apply Hen. vm_compute. discriminate.
Defined.

(** ** Engaging the soft brake at a given duty *)

(** [setSoftBrakePWM(pwm)] followed by [setSpeed(0, dir)], for every value
    the [uint16_t] parameter can hold: a duty from 1022 to 65535 (the
    values above the maximum are clamped to it) gives a hard brake, a duty
    from 2 to 1021 starts or continues the dither cycle with that duty
    stored, and a duty of 0 or 1 falls through to [setFreewheel], which in
    the HiZ and HiZ_Awake sub-modes leaves the motor coasting. *)
Theorem soft_brake_duty_selects
    (undefined_int64 : spec_float -> Z) (pwm : Z) (dir : Dir) (m : t) :
  wf m -> 0 <= pwm < 2 ^ 16 ->
  let m' := setSoftBrakePWM undefined_int64 pwm m in
  (1022 <= pwm ->
   exists r, (forall fuel,
                setSpeed undefined_int64 (S fuel) 0 dir m' = Some r) /\
             hard_braking r) /\
  (2 <= pwm <= 1021 ->
   exists r, (forall fuel,
                setSpeed undefined_int64 (S fuel) 0 dir m' = Some r) /\
             dithering r /\ soft_brake_pwm_ r = pwm) /\
  (pwm <= 1 -> freewheel_mode (beh_ m) <> DitherBrake ->
   exists r, (forall fuel,
                setSpeed undefined_int64 (S (S fuel)) 0 dir m' = Some r) /\
             freewheeling r).
Proof.
  intros Hwf Hu16 m'.
  pose proof (setSoftBrakePWM_wf undefined_int64 pwm m Hwf) as Hwf'.
  fold m' in Hwf'. pose proof Hwf' as (Hrange & _).
  destruct (setSoftBrakePWM_frame undefined_int64 pwm m) as (Hb & Hp & _).
  fold m' in Hb, Hp.
  assert (Hzero : forall fuel,
            setSpeed undefined_int64 fuel 0 dir m'
            = startSoftBrake undefined_int64 fuel m') by reflexivity.
  pose proof (recompute_wf undefined_int64 m' Hwf') as Hwf1.
  destruct (recompute_frame undefined_int64 m') as (Hb1 & _).
  split; [|split].
  - intros Hhigh.
    assert (Hc : 1022 <= soft_brake_pwm_ m').
    { rewrite Hp, kPwmMaxInput_value.
      unfold MathFns.clamp; repeat case_match; lia. }
    destruct (stop_enable_write true Float.hundred Float.hundred _ Hwf1)
      as (_ & _ & _ & Ha & Ht & Hda & Hdb & Hen & _).
    eexists. split.
    + intros fuel. rewrite Hzero, startSoftBrake_S by exact Hrange.
      replace (_ <=? 1) with false by (symmetry; lia).
      replace (1022 <=? _) with true by (symmetry; lia). reflexivity.
    + unfold hard_braking. tauto.
  - intros Hmid.
    assert (Hc : soft_brake_pwm_ m' = pwm).
    { rewrite Hp. apply clamp_id. rewrite kPwmMaxInput_value. lia. }
    destruct (engage_outcome undefined_int64 m' Hwf')
      as (_ & _ & _ & Hd & _).
    exists (engage undefined_int64 m'). split; [|split; [exact Hd|]].
    + intros fuel. rewrite Hzero, startSoftBrake_S by exact Hrange.
      replace (_ <=? 1) with false by (symmetry; lia).
      replace (1022 <=? _) with false by (symmetry; lia). reflexivity.
    + rewrite <- Hc.
      unfold engage. cbv zeta.
      destruct (split_period_frame undefined_int64
                  (recomputeSoftDurations undefined_int64 m'))
        as (_ & Hp2 & _).
      destruct (recompute_frame undefined_int64 m') as (_ & Hp1 & _).
      destruct (negb _); [|congruence].
      unfold scheduleNextPhase, applyPhase, writeAB. cbn.
      repeat case_match; cbn; congruence.
  - intros Hlow Hmode.
    assert (Hc : soft_brake_pwm_ m' <= 1).
    { rewrite Hp, kPwmMaxInput_value.
      unfold MathFns.clamp; repeat case_match; lia. }
    destruct (stopSoftBrake_outcome _ Hwf1) as (Hwf2 & _).
    destruct (stopSoftBrake_frame (recomputeSoftDurations undefined_int64 m'))
      as (Hb2 & _).
    assert (Hmode2 : freewheel_mode
                       (beh_ (stopSoftBrake
                                (recomputeSoftDurations undefined_int64 m')))
                     = freewheel_mode (beh_ m)) by congruence.
    destruct (setFreewheel_outcome undefined_int64 _ Hwf2)
      as (r & rest & Hr & _ & _ & _ & _ & _ & Hout).
    { unfold loops. rewrite Hmode2. tauto. }
    exists r. split.
    + intros fuel. rewrite Hzero, startSoftBrake_S by exact Hrange.
      replace (_ <=? 1) with true by (symmetry; lia).
      destruct fuel as [|fuel].
      * rewrite setFreewheel_S, Hmode2.
        specialize (Hr 2%nat ltac:(lia)).
        rewrite setFreewheel_S, Hmode2 in Hr.
        destruct (freewheel_mode (beh_ m)); [exact Hr|exact Hr|congruence].
      * apply Hr. lia.
    + rewrite Hmode2 in Hout.
      destruct (freewheel_mode (beh_ m)); [exact Hout|exact Hout|congruence].
Qed.

Lemma soft_brake_duty_selects_witness :
  exists r,
    setSpeed no_int64 1 0 CW
      (setSoftBrakePWM no_int64 60000
         (configured MotorBehaviorConfig_default)) = Some r /\
    hard_braking r.
Proof.
  destruct (soft_brake_duty_selects no_int64 60000 CW
              (configured MotorBehaviorConfig_default))
    as (Hhigh & _ & _).
  - vm_compute. repeat split; (reflexivity || discriminate).
  - lia.
  - destruct Hhigh as (r & Hr & Hb); [lia|].
    exists r. split; [apply Hr|exact Hb].
Defined.

(** ** The brake level *)

Lemma level_bounds pwm :
  0 <= pwm <= kPwmMaxInput_ ->
  SFleb Float.zero (level_of pwm) = true /\
  SFleb (level_of pwm) Float.one = true.
Proof.
  intros H. apply andb_prop.
  apply (range_check
           (fun p => SFleb Float.zero (level_of p)
                     && SFleb (level_of p) Float.one) 0 1024).
  - vm_compute; reflexivity.
  - rewrite kPwmMaxInput_value in H. lia.
Qed.

Lemma level_positive pwm :
  1 <= pwm <= kPwmMaxInput_ -> positive_finite (level_of pwm) = true.
Proof.
  intros H.
  apply (range_check (fun p => positive_finite (level_of p)) 1 1023).
  - vm_compute; reflexivity.
  - rewrite kPwmMaxInput_value in H. lia.
Qed.

Lemma level_step pwm :
  1 <= pwm < kPwmMaxInput_ ->
  SFleb (level_of pwm) (level_of (pwm + 1)) = true.
Proof.
  intros H.
  apply (range_check
           (fun p => SFleb (level_of p) (level_of (p + 1))) 1 1022).
  - vm_compute; reflexivity.
  - rewrite kPwmMaxInput_value in H. lia.
Qed.

Lemma level_monotone p1 p2 :
  0 <= p1 -> p1 <= p2 -> p2 <= kPwmMaxInput_ ->
  SFleb (level_of p1) (level_of p2) = true.
Proof.
  intros H1 H12 H2.
  destruct (decide (p1 = 0)) as [->|Hnz].
  { rewrite level_of_zero. apply level_bounds. lia. }
  replace p2 with (p1 + Z.of_nat (Z.to_nat (p2 - p1))) in * by lia.
  induction (Z.to_nat (p2 - p1)) as [|n IH].
  - rewrite Z.add_0_r.
    pose proof (level_positive p1 ltac:(lia)) as Hpos.
    destruct (level_of p1) as [| | |[] mc ec]; try discriminate.
    apply SFleb_positive. lia.
  - apply (SFleb_positive_trans _ (level_of (p1 + Z.of_nat n)));
      try (apply level_positive; lia).
    + apply IH; lia.
    + replace (p1 + Z.of_nat (S n)) with (p1 + Z.of_nat n + 1) by lia.
      apply level_step. lia.
Qed.

(** The level [recomputeSoftDurations] derives from the stored duty is a
    binary32 value between 0.0 and 1.0, exactly 0.0 for duty 0 and exactly
    1.0 for the maximum duty, and it does not decrease when the duty
    grows. *)
Theorem soft_level_range
    (undefined_int64 : spec_float -> Z) (m1 m2 : t) :
  wf m1 -> wf m2 -> soft_brake_pwm_ m1 <= soft_brake_pwm_ m2 ->
  let l1 := soft_level_ (recomputeSoftDurations undefined_int64 m1) in
  let l2 := soft_level_ (recomputeSoftDurations undefined_int64 m2) in
  SFleb Float.zero l1 = true /\ SFleb l1 l2 = true /\
  SFleb l2 Float.one = true /\
  (soft_brake_pwm_ m1 = 0 -> l1 = Float.zero) /\
  (soft_brake_pwm_ m2 = kPwmMaxInput_ -> l2 = Float.one).
Proof.
  intros (Hp1 & _) (Hp2 & _) Hle l1 l2. subst l1 l2.
  rewrite !recompute_level.
  split; [apply level_bounds, Hp1|].
  split; [apply level_monotone; lia|].
  split; [apply level_bounds, Hp2|].
  split; intros ->; vm_compute; reflexivity.
Qed.

Lemma soft_level_range_witness :
  let m1 := setSoftBrakePWM no_int64 100
              (configured MotorBehaviorConfig_default) in
  let m2 := setSoftBrakePWM no_int64 900
              (configured MotorBehaviorConfig_default) in
  SFleb (soft_level_ (recomputeSoftDurations no_int64 m1))
        (soft_level_ (recomputeSoftDurations no_int64 m2)) = true.
Proof.
  intros m1 m2.
  apply (soft_level_range no_int64 m1 m2).
  - vm_compute. repeat split; (reflexivity || discriminate).
  - vm_compute. repeat split; (reflexivity || discriminate).
  - vm_compute. discriminate.
Defined.

End HBridgeMotorSpec.

(* ===================================================================== *)
(** * Properties of the numeric utility *)
(* ===================================================================== *)

Module MathFnsSpec.

(** [clamp] with ordered bounds returns a value within them, returns its
    argument exactly when the argument is within them, is unchanged by a
    second application and preserves the order of its arguments; with
    bounds given in the wrong order it returns the lower bound below it
    and the upper bound otherwise. *)
Theorem clamp_properties (value value' low high : Z) :
  (low <= high ->
   low <= MathFns.clamp value low high <= high /\
   (MathFns.clamp value low high = value <-> low <= value <= high) /\
   MathFns.clamp (MathFns.clamp value low high) low high
     = MathFns.clamp value low high /\
   (value <= value' ->
    MathFns.clamp value low high <= MathFns.clamp value' low high)) /\
  (high < low ->
   MathFns.clamp value low high = if value <? low then low else high).
Proof.
  unfold MathFns.clamp. split.
  - intros Hlh. repeat split; repeat case_match; lia.
  - intros Hhl. repeat case_match; lia.
Qed.

Lemma clamp_properties_witness :
  MathFns.clamp 2000 0 1023 = 1023 /\ MathFns.clamp 5 10 0 = 10.
Proof.
  destruct (clamp_properties 2000 2000 0 1023) as [Hord _].
  destruct (clamp_properties 5 5 10 0) as [_ Hrev].
  split.
  - destruct (Hord ltac:(lia)) as (Hr & _).
    change (MathFns.clamp 2000 0 1023) with 1023 in *. reflexivity.
  - rewrite Hrev by lia. reflexivity.
Defined.

End MathFnsSpec.
